(** * SoapRetrieve: paginated SOAP retrieval with retry, pause and resume

    A shallow embedding of [src/soap_retrieve.py] (class [SoapRetrieve]) and
    of [src/soap_vincidia.py] (class [RetrieveSend]).

    The coroutines of the source are state-passing functions over a record
    of call counters and an event trace.  Everything outside the two files
    (the zeep transport, the budget signal, the two callbacks, the auth
    collaborator, the clock, the configuration) is a field of [Env]: an
    oracle that answers the k-th call of its kind. *)

From Stdlib Require Import String List ZArith Bool Arith Lia.
Import ListNotations.
Open Scope string_scope.

(** ** Requests, responses and the paused dictionary *)

Inductive tzinfo_t : Type := pytz_utc.

Record datetime : Type := mk_datetime {
  year : Z; month : Z; day : Z;
  hour : Z; minute : Z; second : Z; microsecond : Z;
  tzinfo : option tzinfo_t
}.

(** [d.replace(tzinfo=tz)] *)
Definition replace_tzinfo (d : datetime) (tz : tzinfo_t) : datetime :=
  {| year := year d; month := month d; day := day d;
     hour := hour d; minute := minute d; second := second d;
     microsecond := microsecond d; tzinfo := Some tz |}.

(** What a caller may pass where a [datetime] is expected: Python does not
    enforce the annotation, the code tests [isinstance(_, datetime)]. *)
Inductive pyobj : Type :=
| PyNone
| PyDatetime (d : datetime)
| PyStr (s : string)
| PyInt (z : Z).

Definition isinstance_datetime (o : pyobj) : bool :=
  match o with PyDatetime _ => true | _ => false end.

(** ns0:SimpleFilterPart *)
Record SimpleFilterPart : Type := filter_base {
  Property : string;
  SimpleOperator : string;
  DateValue : list pyobj
}.

(** ns0:RetrieveRequest.  [req_base] is the zeep type constructor; a keyword
    the source leaves out is passed here as the constructor's default
    ([[]] for the repeated element, [None] for the optional ones). *)
Record RetrieveRequest : Type := req_base {
  ObjectType : string;
  Properties : list string;
  Filter : option SimpleFilterPart;
  ContinueRequest : option string
}.

(** The (serialized) RetrieveResponseMsg.  [OverallStatus = None] is a
    response in which the key is not present; [RequestID] is the
    continuation cursor ([None] is Python's [None]). *)
Record Response : Type := mk_response {
  OverallStatus : option string;
  RequestID : option string;
  Results : list string
}.

(** The dictionary handed to [pause_callback] and taken by [resume_request];
    [resume_request] tests ['oauth' in paused], so that key is optional. *)
Record Paused : Type := mk_paused {
  oauth : option string;
  object_type : string;
  continue_request : option string
}.

(** ** Exceptions *)

(** The five classes named by the [except] clause of [submit_request]
    (each constructor stands for the class and what inherits from it), the
    two exception classes of the repository, tenacity's [RetryError], and
    [OtherException] for an exception of any class the [except] clause and
    the retry predicate do not match. *)
Inductive exn : Type :=
| ClientResponseError
| ClientConnectionError
| ServerTimeoutError
| ClientError
| asyncio_TimeoutError
| OtherException (cls : string)
| IngestServiceException (msg : string) (code : Z) (cause : exn)
| IngestDataRetrieveException (msg : string)
| RetryError (last_attempt : exn).

(** [except (ClientResponseError, ClientConnectionError, ServerTimeoutError,
    ClientError, asyncio.TimeoutError) as err] *)
Definition is_soap_error (e : exn) : bool :=
  match e with
  | ClientResponseError | ClientConnectionError | ServerTimeoutError
  | ClientError | asyncio_TimeoutError => true
  | _ => false
  end.

(** Modelled from the spec: the class hierarchy of [src.lib.ingest_exceptions]
    is not among the sources.  Section 7 of the specification keeps the
    transient kind ([IngestServiceException]) apart from the data kind
    ([IngestDataRetrieveException]), so neither is taken to be a subclass of
    the other and [retry_if_exception_type(IngestServiceException)] matches
    the first only. *)
Definition retry_if_exception_type (e : exn) : bool :=
  match e with
  | IngestServiceException _ _ _ => true
  | _ => false
  end.

(** ** The environment and the observable state *)

Inductive event : Type :=
| EvRetrieve (req : RetrieveRequest)   (* zeep_client.service.Retrieve called *)
| EvHandler (resp : Response)          (* response_callback called *)
| EvPause (p : Paused)                 (* pause_callback called *)
| EvSleep                              (* tenacity waits before a new attempt *)
| EvResumeExtract (blob : string).     (* Oauth2Request.resume_extract called *)

Record Env : Type := mk_env {
  (** SfmcConfig.max_retries *)
  max_retries : nat;
  (** outcome of the k-th [zeep_client.service.Retrieve] call (with the
      headers of [Oauth2Request.get_soap_headers]) *)
  Retrieve : nat -> RetrieveRequest -> exn + Response;
  (** answer of the k-th [is_it_time_to_pause()] *)
  is_it_time_to_pause : nat -> bool;
  (** the k-th call of the result handler: [None] when it returns *)
  response_callback : nat -> Response -> option exn;
  (** the k-th call of the pause notifier: [None] when it returns *)
  pause_callback : nat -> Paused -> option exn;
  (** blob returned by the k-th [Oauth2Request.pause_extract()] *)
  pause_extract : nat -> string;
  (** [str(response)], used by the f-string of the first check *)
  str_response : Response -> string
}.

Record State : Type := mk_state {
  retrieves : nat;      (* Retrieve calls made so far *)
  pause_checks : nat;   (* is_it_time_to_pause calls made so far *)
  handled : nat;        (* response_callback calls made so far *)
  pauses : nat;         (* pause_extract / pause_callback calls made so far *)
  trace : list event
}.

Definition init : State := mk_state 0 0 0 0 [].

(** ** A state and exception monad *)

Inductive outcome (A : Type) : Type :=
| Return (a : A)
| Raise (e : exn)
| OutOfFuel.
Arguments Return {A} a.
Arguments Raise {A} e.
Arguments OutOfFuel {A}.

Definition M (A : Type) : Type := State -> State * outcome A.

Definition ret {A} (a : A) : M A := fun st => (st, Return a).
Definition raise {A} (e : exn) : M A := fun st => (st, Raise e).
Definition bind {A B} (m : M A) (k : A -> M B) : M B :=
  fun st =>
    match m st with
    | (st1, Return a) => k a st1
    | (st1, Raise e) => (st1, Raise e)
    | (st1, OutOfFuel) => (st1, OutOfFuel)
    end.

Declare Scope py_scope.
Delimit Scope py_scope with py.
Notation "x <- m ;; k" := (bind m (fun x => k))
  (at level 100, m at next level, right associativity) : py_scope.
Notation "m ;;; k" := (bind m (fun _ => k))
  (at level 100, right associativity) : py_scope.
Open Scope py_scope.

Definition log_event (ev : event) (st : State) : State :=
  mk_state (retrieves st) (pause_checks st) (handled st) (pauses st)
           (trace st ++ [ev]).

Definition emit (ev : event) : M unit := fun st => (log_event ev st, Return tt).

(** [try: body  except <classes> as err: handler(err)] *)
Definition try_except {A} (body : M A) (classes : exn -> bool)
    (handler : exn -> M A) : M A :=
  fun st =>
    match body st with
    | (st1, Raise err) => if classes err then handler err st1 else (st1, Raise err)
    | r => r
    end.

(** [await asyncio.gather(t1, t2)] for two tasks.  Both coroutines become
    tasks and both are started; here each runs to completion, in list
    order, and the exception delivered is the first one in that order.
    A second task that ran out of fuel leaves the whole without outcome. *)
Definition gather (t1 t2 : M unit) : M unit :=
  fun st =>
    let (st1, o1) := t1 st in
    let (st2, o2) := t2 st1 in
    (st2, match o1, o2 with
          | OutOfFuel, _ | _, OutOfFuel => OutOfFuel
          | Raise e, _ => Raise e
          | Return _, o => o
          end).

(** ** The collaborators as monadic calls *)

Definition service_Retrieve (env : Env) (req : RetrieveRequest) : M Response :=
  fun st =>
    (mk_state (S (retrieves st)) (pause_checks st) (handled st) (pauses st)
              (trace st ++ [EvRetrieve req]),
     match Retrieve env (retrieves st) req with
     | inl err => Raise err
     | inr response => Return response
     end).

Definition call_response_callback (env : Env) (response : Response) : M unit :=
  fun st =>
    (mk_state (retrieves st) (pause_checks st) (S (handled st)) (pauses st)
              (trace st ++ [EvHandler response]),
     match response_callback env (handled st) response with
     | Some err => Raise err
     | None => Return tt
     end).

Definition call_is_it_time_to_pause (env : Env) : M bool :=
  fun st =>
    (mk_state (retrieves st) (S (pause_checks st)) (handled st) (pauses st)
              (trace st),
     Return (is_it_time_to_pause env (pause_checks st))).

(** [await self.pause_callback({'oauth': await Oauth2Request.pause_extract(),
    'object_type': ..., 'continue_request': ...})] *)
Definition call_pause_callback (env : Env) (ot : string) (tok : option string)
    : M unit :=
  fun st =>
    let paused := mk_paused (Some (pause_extract env (pauses st))) ot tok in
    (mk_state (retrieves st) (pause_checks st) (handled st) (S (pauses st))
              (trace st ++ [EvPause paused]),
     match pause_callback env (pauses st) paused with
     | Some err => Raise err
     | None => Return tt
     end).

(** ** tenacity's [@retry] *)

(** [retry_loop further fn]: run [fn]; an exception the predicate
    [retry_if_exception_type(IngestServiceException)] rejects is re-raised
    as it is; one it accepts starts a new attempt after a wait, unless the
    stop condition holds, in which case ([reraise] is not set) tenacity
    raises [RetryError] holding the last attempt.  [further] is the number
    of attempts still allowed after the current one. *)
Fixpoint retry_loop {A} (further : nat) (fn : M A) : M A :=
  fun st =>
    match fn st with
    | (st1, Raise e) =>
        if retry_if_exception_type e then
          match further with
          | O => (st1, Raise (RetryError e))
          | S k => retry_loop k fn (log_event EvSleep st1)
          end
        else (st1, Raise e)
    | r => r
    end.

(** [stop_after_attempt(n)] stops once [attempt_number >= n], attempts being
    numbered from 1: after the first attempt at most [n - 1] more are made
    (none when [n] is 0 or 1). *)
Definition retry {A} (env : Env) (fn : M A) : M A :=
  retry_loop (max_retries env - 1) fn.

(** ** SoapRetrieve *)

Definition startswith (prefix s : string) : bool := String.prefix prefix s.

(** [_submit_next_request], with the decorated [submit_request] it calls
    passed as [submit]. *)
Definition _submit_next_request (submit : RetrieveRequest -> M unit)
    (env : Env) (request : RetrieveRequest) (response : Response) : M unit :=
  match OverallStatus response with
  | Some status =>
      if String.eqb status "MoreDataAvailable" then
        pause <- call_is_it_time_to_pause env ;;
        if (pause : bool) then
          call_pause_callback env (ObjectType request) (RequestID response)
        else
          let request2 :=
            req_base (ObjectType request) [] None (RequestID response) in
          submit request2
      else ret tt
  | None => ret tt
  end.

(** The body of [submit_request], below the decorator.  [log.warn] leaves
    no event, and [helpers.serialize_object] keeps the fields of the
    response. *)
Definition submit_request_body (submit : RetrieveRequest -> M unit)
    (env : Env) (retrieve_request : RetrieveRequest) : M unit :=
  response <-
    try_except (service_Retrieve env retrieve_request) is_soap_error
      (fun err => raise (IngestServiceException "SOAP Service Fail" 0 err)) ;;
  match OverallStatus response with
  | None =>
      raise (IngestDataRetrieveException
               ("Invalid Response " ++ str_response env response))
  | Some status =>
      if startswith "Error" status then
        raise (IngestDataRetrieveException
                 ("Status Error in Response " ++ status))
      else
        gather (call_response_callback env response)
               (_submit_next_request submit env retrieve_request response)
  end.

(** [submit_request] as decorated.  The recursion goes through
    [_submit_next_request], one level per page; [fuel] bounds the number of
    pages followed. *)
Fixpoint submit_request (env : Env) (fuel : nat)
    (retrieve_request : RetrieveRequest) : M unit :=
  match fuel with
  | O => fun st => (st, OutOfFuel)
  | S fuel' =>
      retry env
        (submit_request_body (submit_request env fuel') env retrieve_request)
  end.

Definition resume_request (env : Env) (fuel : nat) (paused : Paused) : M unit :=
  (match oauth paused with
   | Some blob => emit (EvResumeExtract blob)
   | None => ret tt
   end) ;;;
  let request2 :=
    req_base (object_type paused) [] None (continue_request paused) in
  submit_request env fuel request2.

(** [datetime(1970, 1, 1, 0, 0, 0, 0).replace(tzinfo=pytz.utc)] *)
Definition epoch_utc : datetime :=
  replace_tzinfo (mk_datetime 1970 1 1 0 0 0 0 None) pytz_utc.

(** [build_common_request]; [utcnow] is the reading of [datetime.utcnow()].
    [filter_date_field] is [Optional[str]]: [None] and the empty string are
    the falsy values. *)
Definition build_common_request (utcnow : datetime)
    (object_type : string) (properties : list string)
    (start_datetime end_datetime : pyobj)
    (filter_date_field : option string) : RetrieveRequest :=
  let start_datetime :=
    if negb (isinstance_datetime start_datetime)
    then PyDatetime epoch_utc else start_datetime in
  let end_datetime :=
    if negb (isinstance_datetime end_datetime)
    then PyDatetime (replace_tzinfo utcnow pytz_utc) else end_datetime in
  let simplefilter :=
    match filter_date_field with
    | Some field =>
        if String.eqb field "" then None
        else Some (filter_base field "between" [start_datetime; end_datetime])
    | None => None
    end in
  req_base object_type properties simplefilter None.

(** [RetrieveSend.get] of [src/soap_vincidia.py]. *)
Definition RetrieveSend_properties : list string :=
  ["Status"; "Additional"; "BccEmail"; "CreatedDate"; "ModifiedDate";
   "FromAddress"; "FromName"; "IsMultipart"; "ID"; "SendLimit";
   "SendWindowClose"; "SendWindowOpen"; "EmailName"; "Duplicates";
   "ExistingUndeliverables"; "ExistingUnsubscribes"; "ForwardedEmails";
   "NumberErrored"; "NumberExcluded"; "NumberSent"; "NumberTargeted";
   "MissingAddresses"; "OtherBounces"; "PreviewURL";
   "SendDate"; "SoftBounces"; "HardBounces"; "Subject"; "UniqueClicks";
   "UniqueOpens"; "Unsubscribes"; "Email.ID"].

Definition RetrieveSend_get (env : Env) (utcnow : datetime) (fuel : nat)
    (start_datetime end_datetime : pyobj) : M unit :=
  let request :=
    build_common_request utcnow "Send" RetrieveSend_properties
      start_datetime end_datetime (Some "ModifiedDate") in
  submit_request env fuel request.

(** ** The retry scope as the specification words it *)

(** Section 4.4 of the specification puts the retry policy around the
    external call of [submit] only.  [submit_external_retry] is that
    reading: the same steps as [submit_request_body], with [retry] applied
    to the guarded transport call and nothing else.  It is compared with
    [submit_request] below. *)
Definition submit_external_retry_body (submit : RetrieveRequest -> M unit)
    (env : Env) (retrieve_request : RetrieveRequest) : M unit :=
  response <-
    retry env
      (try_except (service_Retrieve env retrieve_request) is_soap_error
         (fun err => raise (IngestServiceException "SOAP Service Fail" 0 err))) ;;
  match OverallStatus response with
  | None =>
      raise (IngestDataRetrieveException
               ("Invalid Response " ++ str_response env response))
  | Some status =>
      if startswith "Error" status then
        raise (IngestDataRetrieveException
                 ("Status Error in Response " ++ status))
      else
        gather (call_response_callback env response)
               (_submit_next_request submit env retrieve_request response)
  end.

Fixpoint submit_external_retry (env : Env) (fuel : nat)
    (retrieve_request : RetrieveRequest) : M unit :=
  match fuel with
  | O => fun st => (st, OutOfFuel)
  | S fuel' =>
      submit_external_retry_body (submit_external_retry env fuel') env
        retrieve_request
  end.

(** ** Reading a trace *)

Definition handled_responses (evs : list event) : list Response :=
  flat_map (fun ev => match ev with EvHandler r => [r] | _ => [] end) evs.

Definition paused_states (evs : list event) : list Paused :=
  flat_map (fun ev => match ev with EvPause p => [p] | _ => [] end) evs.

Definition retrieved_requests (evs : list event) : list RetrieveRequest :=
  flat_map (fun ev => match ev with EvRetrieve r => [r] | _ => [] end) evs.

Definition sleeps (evs : list event) : nat :=
  length (filter (fun ev => match ev with EvSleep => true | _ => false end) evs).

(** The request for the page after [response]. *)
Definition next_request (request : RetrieveRequest) (response : Response)
    : RetrieveRequest :=
  req_base (ObjectType request) [] None (RequestID response).

(** State after a page was fetched and dispatched to the handler. *)
Definition after_page (request : RetrieveRequest) (response : Response)
    (st : State) : State :=
  mk_state (S (retrieves st)) (pause_checks st) (S (handled st)) (pauses st)
           (trace st ++ [EvRetrieve request; EvHandler response]).

(** The same, with the budget signal consulted once. *)
Definition after_boundary (request : RetrieveRequest) (response : Response)
    (st : State) : State :=
  mk_state (S (retrieves st)) (S (pause_checks st)) (S (handled st)) (pauses st)
           (trace st ++ [EvRetrieve request; EvHandler response]).

(** State after a Retrieve call. *)
Definition after_retrieve (request : RetrieveRequest) (st : State) : State :=
  mk_state (S (retrieves st)) (pause_checks st) (handled st) (pauses st)
           (trace st ++ [EvRetrieve request]).

(** State after the budget signal was consulted. *)
Definition checked (st : State) : State :=
  mk_state (retrieves st) (S (pause_checks st)) (handled st) (pauses st)
           (trace st).

(** The dictionary built at a boundary where the budget is spent. *)
Definition paused_at (env : Env) (request : RetrieveRequest)
    (response : Response) (st : State) : Paused :=
  mk_paused (Some (pause_extract env (pauses st))) (ObjectType request)
            (RequestID response).

(** An uninterrupted walk over [n] pages, [pages k] being the first. *)
Fixpoint walk_events (request : RetrieveRequest) (pages : nat -> Response)
    (k n : nat) : list event :=
  match n with
  | O => []
  | S n' =>
      EvRetrieve request :: EvHandler (pages k)
        :: walk_events (next_request request (pages k)) pages (S k) n'
  end.

Fixpoint walk_request (request : RetrieveRequest) (pages : nat -> Response)
    (k n : nat) : RetrieveRequest :=
  match n with
  | O => request
  | S n' => walk_request (next_request request (pages k)) pages (S k) n'
  end.

Definition walk_state (request : RetrieveRequest) (pages : nat -> Response)
    (k n : nat) (st : State) : State :=
  mk_state (retrieves st + n) (pause_checks st + n) (handled st + n) (pauses st)
           (trace st ++ walk_events request pages k n).

(** ** Concrete scenarios *)

Module Scenario.

Definition more (token : string) : Response :=
  mk_response (Some "MoreDataAvailable") (Some token) ["record"].

Definition success : Response := mk_response (Some "Success") None ["record"].

Definition account : RetrieveRequest :=
  req_base "Account" ["Id"; "Name"] None None.

(** Two pages with more data, then a last one. *)
Definition three_pages (k : nat) : Response :=
  match k with
  | 0 => more "cursor-1"
  | 1 => more "cursor-2"
  | _ => success
  end.

(** A service that answers the k-th call with [three_pages k], a budget
    that never runs out, callbacks that return. *)
Definition calm : Env :=
  mk_env 3 (fun k _ => inr (three_pages k)) (fun _ => false)
         (fun _ _ => None) (fun _ _ => None) (fun _ => "oauth-blob")
         (fun _ => "<response>").

(** The same, with the budget spent at the second boundary. *)
Definition short_budget : Env :=
  mk_env 3 (fun k _ => inr (three_pages k))
         (fun k => match k with 0 => false | _ => true end)
         (fun _ _ => None) (fun _ _ => None) (fun _ => "oauth-blob")
         (fun _ => "<response>").

End Scenario.

(** ** Attempts that fail in the transport *)

(** Events of [further + 1] attempts that all stop at the Retrieve call. *)
Fixpoint failed_attempts (request : RetrieveRequest) (further : nat)
    : list event :=
  match further with
  | O => [EvRetrieve request]
  | S k => EvRetrieve request :: EvSleep :: failed_attempts request k
  end.

(** What the [except] clause raises for [err]. *)
Definition soap_service_fail (err : exn) : exn :=
  IngestServiceException "SOAP Service Fail" 0 err.

Module Outage.

(** Three attempts allowed; the transport times out on the first two
    calls and loses the connection on every later one. *)
Definition failures (k : nat) : exn :=
  match k with
  | 0 | 1 => ServerTimeoutError
  | _ => ClientConnectionError
  end.

Definition env : Env :=
  mk_env 3 (fun k _ => inl (failures k)) (fun _ => false)
         (fun _ _ => None) (fun _ _ => None) (fun _ => "oauth-blob")
         (fun _ => "<response>").

(** The transport raises an exception of a class the [except] clause
    does not name. *)
Definition fault : Env :=
  mk_env 3 (fun _ _ => inl (OtherException "zeep.exceptions.Fault"))
         (fun _ => false)
         (fun _ _ => None) (fun _ _ => None) (fun _ => "oauth-blob")
         (fun _ => "<response>").

End Outage.

Module Rejected.

Definition invalid_object_type : Response :=
  mk_response (Some "Error: Invalid ObjectType") (Some "req-1") [].

Definition no_status : Response := mk_response None (Some "req-1") [].

(** A service that rejects every query. *)
Definition env : Env :=
  mk_env 3 (fun _ _ => inr invalid_object_type) (fun _ => false)
         (fun _ _ => None) (fun _ _ => None) (fun _ => "oauth-blob")
         (fun _ => "<response>").

(** A service whose answers carry no OverallStatus. *)
Definition shapeless : Env :=
  mk_env 3 (fun _ _ => inr no_status) (fun _ => false)
         (fun _ _ => None) (fun _ _ => None) (fun _ => "oauth-blob")
         (fun _ => "<response>").

End Rejected.

(** The request [resume_request] builds, and the state in which it is
    submitted. *)
Definition resumed_request (paused : Paused) : RetrieveRequest :=
  req_base (object_type paused) [] None (continue_request paused).

Definition resumed_state (paused : Paused) (st : State) : State :=
  match oauth paused with
  | Some blob => log_event (EvResumeExtract blob) st
  | None => st
  end.

(** The bounds of the filter of a request, when it has one. *)
Definition lower_bound (request : RetrieveRequest) : option pyobj :=
  match Filter request with
  | Some f => nth_error (DateValue f) 0
  | None => None
  end.

Definition upper_bound (request : RetrieveRequest) : option pyobj :=
  match Filter request with
  | Some f => nth_error (DateValue f) 1
  | None => None
  end.

Module Resumption.

Definition paused : Paused :=
  mk_paused (Some "oauth-blob") "Account" (Some "cursor-2").

(** The service has one last page left. *)
Definition env : Env :=
  mk_env 3 (fun _ _ => inr Scenario.success) (fun _ => false)
         (fun _ _ => None) (fun _ _ => None) (fun _ => "oauth-blob")
         (fun _ => "<response>").

(** A service that answers with a status outside the three of the
    specification. *)
Definition odd_status : Response :=
  mk_response (Some "moredataavailable") (Some "cursor-9") ["record"].

Definition odd : Env :=
  mk_env 3 (fun _ _ => inr odd_status) (fun _ => false)
         (fun _ _ => None) (fun _ _ => None) (fun _ => "oauth-blob")
         (fun _ => "<response>").

End Resumption.

Module Clock.

(** 2024-05-17 09:30:00, as [datetime.utcnow()] reads it (naive). *)
Definition now : datetime := mk_datetime 2024 5 17 9 30 0 0 None.

Definition new_year : pyobj :=
  PyDatetime (mk_datetime 2024 1 1 0 0 0 0 (Some pytz_utc)).

End Clock.

(** ** The pause invariant *)

(** [pauses_justified prev evs]: every call of the pause notifier in [evs]
    comes right after a handler call whose response has status
    ['MoreDataAvailable'], and carries the [RequestID] of that response.
    [prev] is the response of the handler call right before [evs], if the
    event before [evs] is one. *)
Fixpoint pauses_justified (prev : option Response) (evs : list event) : Prop :=
  match evs with
  | [] => True
  | EvPause p :: rest =>
      match prev with
      | Some r =>
          OverallStatus r = Some "MoreDataAvailable" /\
          continue_request p = RequestID r
      | None => False
      end /\ pauses_justified None rest
  | EvHandler r :: rest => pauses_justified (Some r) rest
  | _ :: rest => pauses_justified None rest
  end.

(** [m] only appends to the trace, and what it appends is justified. *)
Definition grows {A} (prev : option Response) (m : M A) : Prop :=
  forall st st' o,
    m st = (st', o) ->
    exists evs, trace st' = (trace st ++ evs)%list /\ pauses_justified prev evs.

Module Emptied.

(** A service that asks to be called again without giving a cursor. *)
Definition no_cursor : Response :=
  mk_response (Some "MoreDataAvailable") (Some "") ["record"].

Definition env : Env :=
  mk_env 3 (fun _ _ => inr no_cursor) (fun _ => true)
         (fun _ _ => None) (fun _ _ => None) (fun _ => "oauth-blob")
         (fun _ => "<response>").

End Emptied.

Module Flaky.

Definition ok : Response := mk_response (Some "OK") None ["record"].

(** The transport never fails; the result handler raises the transient
    class on its first call and returns on the later ones. *)
Definition env : Env :=
  mk_env 2 (fun _ _ => inr ok) (fun _ => false)
         (fun k _ =>
            match k with
            | 0 => Some (IngestServiceException "store unavailable" 0
                           ClientConnectionError)
            | _ => None
            end)
         (fun _ _ => None) (fun _ => "oauth-blob")
         (fun _ => "<response>").

End Flaky.

(** ** The two halves of an attempt *)

(** The [try] statement of [submit_request]. *)
Definition guarded_Retrieve (env : Env) (request : RetrieveRequest)
    : M Response :=
  try_except (service_Retrieve env request) is_soap_error
    (fun err => raise (IngestServiceException "SOAP Service Fail" 0 err)).

(** What [submit_request] does below the [try] statement. *)
Definition after_response (submit : RetrieveRequest -> M unit)
    (env : Env) (request : RetrieveRequest) (response : Response) : M unit :=
  match OverallStatus response with
  | None =>
      raise (IngestDataRetrieveException
               ("Invalid Response " ++ str_response env response))
  | Some status =>
      if startswith "Error" status then
        raise (IngestDataRetrieveException
                 ("Status Error in Response " ++ status))
      else
        gather (call_response_callback env response)
               (_submit_next_request submit env request response)
  end.

(** ** Whole runs *)

(** States reached inside [asyncio.gather]: after the handler call, and
    after the handler call, the budget check and the pause notifier. *)
Definition handler_called (env : Env) (response : Response) (st : State)
    : State :=
  fst (call_response_callback env response st).

Definition pause_notified (env : Env) (request : RetrieveRequest)
    (response : Response) (st : State) : State :=
  fst (call_pause_callback env (ObjectType request) (RequestID response)
         (checked (handler_called env response st))).

(** A request as [_submit_next_request] builds them from [request]: the
    same object type, no property list, no filter. *)
Definition continuation_of (request x : RetrieveRequest) : Prop :=
  ObjectType x = ObjectType request /\ Properties x = [] /\ Filter x = None.

(** [st'] is [st] with events appended, each request sent being [request]
    or a continuation of it. *)
Definition sends_only (request : RetrieveRequest) (st st' : State) : Prop :=
  exists evs,
    trace st' = (trace st ++ evs)%list /\
    Forall (fun x => x = request \/ continuation_of request x)
           (retrieved_requests evs).

(** [st'] is [st] with events appended; the counters count the events of
    their kind, and between [st] and [st'] there are no more pause
    notifications than budget checks, no more budget checks than handler
    calls, no more handler calls than Retrieve calls. *)
Definition accounted (st st' : State) : Prop :=
  exists evs,
    trace st' = (trace st ++ evs)%list /\
    retrieves st' = retrieves st + length (retrieved_requests evs) /\
    handled st' = handled st + length (handled_responses evs) /\
    pauses st' = pauses st + length (paused_states evs) /\
    pauses st' + pause_checks st <= pauses st + pause_checks st' /\
    pause_checks st' + handled st <= pause_checks st + handled st' /\
    handled st' + retrieves st <= handled st + retrieves st'.

(** Events of [j] attempts that stop at the Retrieve call, each followed by
    the wait before the next attempt. *)
Fixpoint retried_events (request : RetrieveRequest) (j : nat) : list event :=
  match j with
  | O => []
  | S j' => EvRetrieve request :: EvSleep :: retried_events request j'
  end.

Definition after_retries (request : RetrieveRequest) (j : nat) (st : State)
    : State :=
  mk_state (retrieves st + j) (pause_checks st) (handled st) (pauses st)
           (trace st ++ retried_events request j).

(** The request for page [i] of a walk that starts with [request]: the
    cursor of page [i] is the [RequestID] of the response before it. *)
Definition page_request (request : RetrieveRequest) (pages : nat -> Response)
    (i : nat) : RetrieveRequest :=
  match i with
  | O => request
  | S j => req_base (ObjectType request) [] None (RequestID (pages j))
  end.

Module Recovering.

(** The transport times out twice, then the service answers. *)
Definition env : Env :=
  mk_env 3 (fun k _ => match k with
                       | 0 | 1 => inl ServerTimeoutError
                       | _ => inr Scenario.success
                       end)
         (fun _ => false) (fun _ _ => None) (fun _ _ => None)
         (fun _ => "oauth-blob") (fun _ => "<response>").

(** The service answers; the result handler raises an exception of its
    own. *)
Definition broken_handler : Env :=
  mk_env 3 (fun _ _ => inr Scenario.success) (fun _ => false)
         (fun _ _ => Some (OtherException "IOError")) (fun _ _ => None)
         (fun _ => "oauth-blob") (fun _ => "<response>").

End Recovering.

Module LaterPage.

(** A first page with more data, then a transport that is down. *)
Definition outage_pages (k : nat) : Response := Scenario.more "cursor-1".

Definition outage : Env :=
  mk_env 2 (fun k _ => match k with
                       | 0 => inr (Scenario.more "cursor-1")
                       | _ => inl ClientConnectionError
                       end)
         (fun _ => false) (fun _ _ => None) (fun _ _ => None)
         (fun _ => "oauth-blob") (fun _ => "<response>").

(** A first page with more data, then an answer with an error status. *)
Definition rejected_pages (k : nat) : Response :=
  match k with
  | 0 => Scenario.more "cursor-1"
  | _ => Rejected.invalid_object_type
  end.

Definition rejected : Env :=
  mk_env 2 (fun k _ => inr (rejected_pages k))
         (fun _ => false) (fun _ _ => None) (fun _ _ => None)
         (fun _ => "oauth-blob") (fun _ => "<response>").

End LaterPage.

Module Interrupted.

(** Three pages; the budget is spent at the first boundary only. *)
Definition env : Env :=
  mk_env 3 (fun k _ => inr (Scenario.three_pages k))
         (fun k => Nat.eqb k 0)
         (fun _ _ => None) (fun _ _ => None) (fun _ => "oauth-blob")
         (fun _ => "<response>").

End Interrupted.

(** ** The cached SOAP client *)

Module ZeepClient.

(** The part of a [SoapRetrieve] object the [zeep_client] property reads
    and writes.  [built] counts the calls of
    [Oauth2Request.get_soap_client()], whose k-th call returns
    [get_soap_client k]. *)
Record instance : Type := mk_instance {
  _zeep_client : option string;
  built : nat
}.

(** [__init__] sets [self._zeep_client = None]. *)
Definition __init__ : instance := mk_instance None 0.

(** The [zeep_client] property. *)
Definition zeep_client (get_soap_client : nat -> string) (self : instance)
    : instance * string :=
  match _zeep_client self with
  | None =>
      let client := get_soap_client (built self) in
      (mk_instance (Some client) (S (built self)), client)
  | Some client => (self, client)
  end.

(** [n] reads of the property, one after the other. *)
Fixpoint reads (get_soap_client : nat -> string) (n : nat) (self : instance)
    : instance * list string :=
  match n with
  | O => (self, [])
  | S n' =>
      let (self1, client) := zeep_client get_soap_client self in
      let (self2, clients) := reads get_soap_client n' self1 in
      (self2, client :: clients)
  end.

End ZeepClient.

(** Events of [further + 1] attempts that each fetch a response and hand it
    to the handler, [responses i] being the response of attempt [i]. *)
Fixpoint redispatched (request : RetrieveRequest) (responses : nat -> Response)
    (further : nat) : list event :=
  match further with
  | O => [EvRetrieve request; EvHandler (responses 0)]
  | S k =>
      EvRetrieve request :: EvHandler (responses 0) :: EvSleep
        :: redispatched request (fun i => responses (S i)) k
  end.

Module Unavailable.

(** The service answers; the result handler raises the transient class at
    each call. *)
Definition env : Env :=
  mk_env 3 (fun _ _ => inr Scenario.success) (fun _ => false)
         (fun k _ => Some (IngestServiceException "store unavailable"
                             (Z.of_nat k) ClientConnectionError))
         (fun _ _ => None)
         (fun _ => "oauth-blob") (fun _ => "<response>").

End Unavailable.

(** * Properties *)

(** ** The retry wrapper *)

(** Whatever the wrapper raises, the retry predicate rejects it: an accepted
    exception is either retried or replaced by [RetryError]. *)
Lemma retry_loop_not_retryable {A} (further : nat) (fn : M A) :
  forall st st' e,
    retry_loop further fn st = (st', Raise e) ->
    retry_if_exception_type e = false.
Proof.
  induction further as [|k IH]; intros st st' e; simpl;
    destruct (fn st) as [st1 [a|e1|]] eqn:E; try discriminate;
    destruct (retry_if_exception_type e1) eqn:P; intros H;
    try (inversion H; subst; first [exact P | reflexivity]).
  eapply IH; eassumption.
Qed.

Lemma submit_request_not_retryable env fuel req st st' e :
  submit_request env fuel req st = (st', Raise e) ->
  retry_if_exception_type e = false.
Proof.
  destruct fuel as [|f]; simpl; [discriminate|].
  apply retry_loop_not_retryable.
Qed.

(** An attempt that does not raise an accepted exception is the only one. *)
Lemma retry_loop_through {A} (further : nat) (fn : M A) st :
  (forall st' e, fn st = (st', Raise e) -> retry_if_exception_type e = false) ->
  retry_loop further fn st = fn st.
Proof.
  intros H. destruct further; simpl;
    destruct (fn st) as [st1 [a|e1|]] eqn:E; auto;
    rewrite (H _ _ eq_refl); reflexivity.
Qed.

Lemma retry_through {A} env (fn : M A) st :
  (forall st' e, fn st = (st', Raise e) -> retry_if_exception_type e = false) ->
  retry env fn st = fn st.
Proof. apply retry_loop_through. Qed.

(** An accepted exception with attempts left: wait, then try again. *)
Lemma retry_loop_again {A} (k : nat) (fn : M A) st st1 e :
  fn st = (st1, Raise e) ->
  retry_if_exception_type e = true ->
  retry_loop (S k) fn st = retry_loop k fn (log_event EvSleep st1).
Proof. intros E P. simpl. rewrite E, P. reflexivity. Qed.

Lemma retry_loop_exhausted {A} (fn : M A) st st1 e :
  fn st = (st1, Raise e) ->
  retry_if_exception_type e = true ->
  retry_loop 0 fn st = (st1, Raise (RetryError e)).
Proof. intros E P. simpl. rewrite E, P. reflexivity. Qed.

(** ** One page *)

Lemma gather_after_return (t1 t2 : M unit) st st1 :
  t1 st = (st1, Return tt) -> gather t1 t2 st = t2 st1.
Proof.
  intros H. unfold gather. rewrite H.
  destruct (t2 st1) as [st2 [[]|e|]]; reflexivity.
Qed.

(** A response with a non-error status under a handler that returns: the
    attempt is the fetch, the dispatch, then [_submit_next_request]. *)
Lemma body_dispatch submit env req st r s :
  Retrieve env (retrieves st) req = inr r ->
  OverallStatus r = Some s ->
  startswith "Error" s = false ->
  response_callback env (handled st) r = None ->
  submit_request_body submit env req st
  = _submit_next_request submit env req r (after_page req r st).
Proof.
  intros HR HS HE HC.
  unfold submit_request_body, bind, try_except, service_Retrieve.
  rewrite HR, HS, HE.
  apply gather_after_return.
  unfold call_response_callback, after_page; cbn [retrieves pause_checks handled pauses trace].
  rewrite HC, <- app_assoc. reflexivity.
Qed.

Lemma next_terminal submit env req r s st :
  OverallStatus r = Some s ->
  s <> "MoreDataAvailable" ->
  _submit_next_request submit env req r st = (st, Return tt).
Proof.
  intros HS HN. unfold _submit_next_request. rewrite HS.
  destruct (String.eqb_spec s "MoreDataAvailable") as [->|_]; [congruence|].
  reflexivity.
Qed.

Lemma next_absent submit env req r st :
  OverallStatus r = None ->
  _submit_next_request submit env req r st = (st, Return tt).
Proof. intros HS. unfold _submit_next_request. rewrite HS. reflexivity. Qed.

Lemma next_continue submit env req r st :
  OverallStatus r = Some "MoreDataAvailable" ->
  is_it_time_to_pause env (pause_checks st) = false ->
  _submit_next_request submit env req r st
  = submit (next_request req r) (checked st).
Proof.
  intros HS HP. unfold _submit_next_request, bind, call_is_it_time_to_pause.
  rewrite HS. simpl. rewrite HP. reflexivity.
Qed.

Lemma next_pause submit env req r st :
  OverallStatus r = Some "MoreDataAvailable" ->
  is_it_time_to_pause env (pause_checks st) = true ->
  _submit_next_request submit env req r st
  = call_pause_callback env (ObjectType req) (RequestID r) (checked st).
Proof.
  intros HS HP. unfold _submit_next_request, bind, call_is_it_time_to_pause.
  rewrite HS. simpl. rewrite HP. reflexivity.
Qed.

Lemma MoreDataAvailable_not_error : startswith "Error" "MoreDataAvailable" = false.
Proof. reflexivity. Qed.

(** A page with more data and budget left: the decorated call is the
    decorated call for the next page. *)
Lemma submit_request_continue env fuel req st r :
  Retrieve env (retrieves st) req = inr r ->
  OverallStatus r = Some "MoreDataAvailable" ->
  response_callback env (handled st) r = None ->
  is_it_time_to_pause env (pause_checks st) = false ->
  submit_request env (S fuel) req st
  = submit_request env fuel (next_request req r) (after_boundary req r st).
Proof.
  intros HR HS HC HP.
  assert (E : submit_request_body (submit_request env fuel) env req st
              = submit_request env fuel (next_request req r)
                  (after_boundary req r st)).
  { rewrite (body_dispatch _ _ _ _ _ _ HR HS MoreDataAvailable_not_error HC).
    rewrite next_continue by assumption. reflexivity. }
  cbn [submit_request]. rewrite retry_through; [exact E|].
  intros st' e H. rewrite E in H.
  eapply submit_request_not_retryable; eassumption.
Qed.

(** A page with a terminal status: fetch, dispatch, return. *)
Lemma submit_request_terminal env fuel req st r s :
  Retrieve env (retrieves st) req = inr r ->
  OverallStatus r = Some s ->
  startswith "Error" s = false ->
  s <> "MoreDataAvailable" ->
  response_callback env (handled st) r = None ->
  submit_request env (S fuel) req st = (after_page req r st, Return tt).
Proof.
  intros HR HS HE HN HC.
  assert (E : submit_request_body (submit_request env fuel) env req st
              = (after_page req r st, Return tt)).
  { rewrite (body_dispatch _ _ _ _ _ _ HR HS HE HC).
    eapply next_terminal; eassumption. }
  cbn [submit_request]. rewrite retry_through; [exact E|].
  intros st' e H. rewrite E in H. discriminate.
Qed.

(** A page with more data and the budget spent: fetch, dispatch, hand the
    paused dictionary to the notifier, return. *)
Lemma submit_request_pause env fuel req st r :
  Retrieve env (retrieves st) req = inr r ->
  OverallStatus r = Some "MoreDataAvailable" ->
  response_callback env (handled st) r = None ->
  is_it_time_to_pause env (pause_checks st) = true ->
  pause_callback env (pauses st) (paused_at env req r st) = None ->
  submit_request env (S fuel) req st
  = (mk_state (S (retrieves st)) (S (pause_checks st)) (S (handled st))
              (S (pauses st))
              (trace st ++ [EvRetrieve req; EvHandler r;
                            EvPause (paused_at env req r st)]),
     Return tt).
Proof.
  intros HR HS HC HP HN.
  assert (E : submit_request_body (submit_request env fuel) env req st
              = (mk_state (S (retrieves st)) (S (pause_checks st))
                   (S (handled st)) (S (pauses st))
                   (trace st ++ [EvRetrieve req; EvHandler r;
                                 EvPause (paused_at env req r st)]),
                 Return tt)).
  { rewrite (body_dispatch _ _ _ _ _ _ HR HS MoreDataAvailable_not_error HC).
    rewrite next_pause by assumption.
    unfold call_pause_callback, checked, after_page, paused_at in *;
      cbn [retrieves pause_checks handled pauses trace].
    rewrite HN, <- app_assoc. reflexivity. }
  cbn [submit_request]. rewrite retry_through; [exact E|].
  intros st' e H. rewrite E in H. discriminate.
Qed.

(** ** A walk over several pages *)

Lemma walk_state_0 req pages k st : walk_state req pages k 0 st = st.
Proof.
  destruct st. unfold walk_state; simpl.
  rewrite !Nat.add_0_r, app_nil_r. reflexivity.
Qed.

Lemma walk_state_S req pages k n st :
  walk_state (next_request req (pages k)) pages (S k) n
    (after_boundary req (pages k) st)
  = walk_state req pages k (S n) st.
Proof.
  unfold walk_state, after_boundary; simpl.
  rewrite <- app_assoc, <- !plus_n_Sm. reflexivity.
Qed.

Lemma submit_request_walk env pages :
  forall n req st k fuel,
    (forall i r', i < n ->
       Retrieve env (retrieves st + i) r' = inr (pages (k + i))) ->
    (forall i, i < n ->
       OverallStatus (pages (k + i)) = Some "MoreDataAvailable") ->
    (forall i r, i < n -> response_callback env (handled st + i) r = None) ->
    (forall i, i < n -> is_it_time_to_pause env (pause_checks st + i) = false) ->
    submit_request env (n + fuel) req st
    = submit_request env fuel (walk_request req pages k n)
        (walk_state req pages k n st).
Proof.
  induction n as [|n IH]; intros req st k fuel HR HS HC HP.
  - rewrite walk_state_0. reflexivity.
  - assert (L : 0 < S n) by lia.
    pose proof (HR 0 req L) as HR0. pose proof (HS 0 L) as HS0.
    pose proof (HC 0 (pages k) L) as HC0. pose proof (HP 0 L) as HP0.
    rewrite !Nat.add_0_r in HR0. rewrite Nat.add_0_r in HS0, HC0, HP0.
    cbn [Nat.add].
    rewrite (submit_request_continue env (n + fuel) req st (pages k))
      by assumption.
    rewrite (IH (next_request req (pages k))
               (after_boundary req (pages k) st) (S k) fuel).
    + rewrite walk_state_S. reflexivity.
    + intros i r' Hi. cbn [after_boundary retrieves].
      replace (S (retrieves st) + i) with (retrieves st + S i) by lia.
      replace (S k + i) with (k + S i) by lia. apply HR. lia.
    + intros i Hi. replace (S k + i) with (k + S i) by lia. apply HS. lia.
    + intros i r Hi. cbn [after_boundary handled].
      replace (S (handled st) + i) with (handled st + S i) by lia.
      apply HC. lia.
    + intros i Hi. cbn [after_boundary pause_checks].
      replace (S (pause_checks st) + i) with (pause_checks st + S i) by lia.
      apply HP. lia.
Qed.

Lemma handled_walk_events req pages :
  forall n k, handled_responses (walk_events req pages k n) = map pages (seq k n).
Proof.
  intros n; revert req. induction n as [|n IH]; intros req k; simpl.
  - reflexivity.
  - f_equal. apply IH.
Qed.

Lemma paused_walk_events req pages :
  forall n k, paused_states (walk_events req pages k n) = [].
Proof.
  intros n; revert req. induction n as [|n IH]; intros req k; simpl; auto.
Qed.

Lemma retrieved_walk_events req pages :
  forall n k, length (retrieved_requests (walk_events req pages k n)) = n.
Proof.
  intros n; revert req. induction n as [|n IH]; intros req k; simpl; auto.
Qed.

Lemma sleeps_walk_events req pages :
  forall n k, sleeps (walk_events req pages k n) = 0.
Proof.
  intros n; revert req. induction n as [|n IH]; intros req k; simpl; auto.
  apply IH.
Qed.

Lemma ObjectType_walk_request req pages :
  forall n k, ObjectType (walk_request req pages k n) = ObjectType req.
Proof.
  intros n; revert req. induction n as [|n IH]; intros req k; simpl; auto.
  rewrite IH. reflexivity.
Qed.

Lemma handled_responses_app l1 l2 :
  handled_responses (l1 ++ l2) = (handled_responses l1 ++ handled_responses l2)%list.
Proof. apply flat_map_app. Qed.

Lemma paused_states_app l1 l2 :
  paused_states (l1 ++ l2) = (paused_states l1 ++ paused_states l2)%list.
Proof. apply flat_map_app. Qed.

Lemma retrieved_requests_app l1 l2 :
  retrieved_requests (l1 ++ l2) = (retrieved_requests l1 ++ retrieved_requests l2)%list.
Proof. apply flat_map_app. Qed.

Lemma Success_not_error : startswith "Error" "Success" = false.
Proof. reflexivity. Qed.

(** ** Pagination *)

(** C1.  When the service answers [MoreDataAvailable] N times and then
    [Success], the budget signal is false at each of the N boundaries and
    the handler returns, one call of [submit_request] (with fuel for N+1
    pages) returns normally; the handler was called N+1 times, with pages
    0..N in that order, and the pause notifier was never called. *)
Theorem pagination_terminates env pages N req st fuel :
  (forall i r', i <= N -> Retrieve env (retrieves st + i) r' = inr (pages i)) ->
  (forall i, i < N -> OverallStatus (pages i) = Some "MoreDataAvailable") ->
  OverallStatus (pages N) = Some "Success" ->
  (forall i, i < N -> is_it_time_to_pause env (pause_checks st + i) = false) ->
  (forall i r, i <= N -> response_callback env (handled st + i) r = None) ->
  N < fuel ->
  exists st' evs,
    submit_request env fuel req st = (st', Return tt) /\
    trace st' = (trace st ++ evs)%list /\
    handled_responses evs = map pages (seq 0 (S N)) /\
    length (handled_responses evs) = S N /\
    paused_states evs = [] /\
    pauses st' = pauses st.
Proof.
  intros HR HS HT HP HC Hf.
  set (reqN := walk_request req pages 0 N).
  set (stN := walk_state req pages 0 N st).
  exists (after_page reqN (pages N) stN),
         (walk_events req pages 0 N ++ [EvRetrieve reqN; EvHandler (pages N)])%list.
  assert (Hh : handled_responses
                 (walk_events req pages 0 N ++ [EvRetrieve reqN; EvHandler (pages N)])
               = map pages (seq 0 (S N))).
  { rewrite handled_responses_app, handled_walk_events, seq_S, map_app.
    reflexivity. }
  repeat split.
  - replace fuel with (N + S (fuel - S N)) by lia.
    rewrite (submit_request_walk env pages N req st 0 (S (fuel - S N))).
    + apply (submit_request_terminal env _ reqN stN (pages N) "Success").
      * unfold stN, walk_state; cbn [retrieves]. apply HR. lia.
      * exact HT.
      * exact Success_not_error.
      * discriminate.
      * unfold stN, walk_state; cbn [handled]. apply HC. lia.
    + intros i r' Hi. apply HR. lia.
    + intros i Hi. apply HS. exact Hi.
    + intros i r Hi. apply HC. lia.
    + intros i Hi. apply HP. exact Hi.
  - unfold after_page, stN, walk_state; cbn [trace].
    rewrite <- app_assoc. reflexivity.
  - exact Hh.
  - rewrite Hh, length_map, length_seq. reflexivity.
  - rewrite paused_states_app, paused_walk_events. reflexivity.
Qed.

Lemma pagination_terminates_witness :
  exists st' evs,
    submit_request Scenario.calm 3 Scenario.account init = (st', Return tt) /\
    trace st' = (trace init ++ evs)%list /\
    handled_responses evs = map Scenario.three_pages (seq 0 3) /\
    length (handled_responses evs) = 3 /\
    paused_states evs = [] /\
    pauses st' = pauses init.
Proof.
  apply (pagination_terminates Scenario.calm Scenario.three_pages 2
           Scenario.account init 3).
  - intros i r' _. reflexivity.
  - intros [|[|i]] Hi; [reflexivity | reflexivity | lia].
  - reflexivity.
  - intros i _. reflexivity.
  - intros i r _. reflexivity.
  - lia.
Defined.

(** C2.  When pages 0..k all carry [MoreDataAvailable], the budget signal
    is false at boundaries 0..k-1 and true at boundary k, and the callbacks
    return, the run hands exactly one dictionary to the pause notifier: its
    token is the [RequestID] of response k and its object type is that of
    the request for page k; the notifier call is the last event of the run,
    so page k+1 is never requested (k+1 Retrieve calls in all). *)
Theorem pause_fidelity env pages k req st fuel :
  (forall i r', i <= k -> Retrieve env (retrieves st + i) r' = inr (pages i)) ->
  (forall i, i <= k -> OverallStatus (pages i) = Some "MoreDataAvailable") ->
  (forall i r, i <= k -> response_callback env (handled st + i) r = None) ->
  (forall i, i < k -> is_it_time_to_pause env (pause_checks st + i) = false) ->
  is_it_time_to_pause env (pause_checks st + k) = true ->
  (forall p, pause_callback env (pauses st) p = None) ->
  k < fuel ->
  exists st' evs p,
    submit_request env fuel req st = (st', Return tt) /\
    trace st' = (trace st ++ evs ++ [EvPause p])%list /\
    paused_states (evs ++ [EvPause p]) = [p] /\
    continue_request p = RequestID (pages k) /\
    object_type p = ObjectType (walk_request req pages 0 k) /\
    object_type p = ObjectType req /\
    length (retrieved_requests (evs ++ [EvPause p])) = S k /\
    retrieves st' = retrieves st + S k.
Proof.
  intros HR HS HC HP HT HN Hf.
  set (reqk := walk_request req pages 0 k).
  set (stk := walk_state req pages 0 k st).
  set (p := paused_at env reqk (pages k) stk).
  exists (mk_state (S (retrieves stk)) (S (pause_checks stk)) (S (handled stk))
            (S (pauses stk))
            (trace stk ++ [EvRetrieve reqk; EvHandler (pages k); EvPause p])),
         (walk_events req pages 0 k ++ [EvRetrieve reqk; EvHandler (pages k)])%list,
         p.
  repeat split.
  - replace fuel with (k + S (fuel - S k)) by lia.
    rewrite (submit_request_walk env pages k req st 0 (S (fuel - S k))).
    + apply (submit_request_pause env _ reqk stk (pages k)).
      * unfold stk, walk_state; cbn [retrieves]. apply HR. lia.
      * apply HS. lia.
      * unfold stk, walk_state; cbn [handled]. apply HC. lia.
      * unfold stk, walk_state; cbn [pause_checks]. exact HT.
      * unfold stk, walk_state; cbn [pauses]. apply HN.
    + intros i r' Hi. apply HR. lia.
    + intros i Hi. apply HS. lia.
    + intros i r Hi. apply HC. lia.
    + intros i Hi. apply HP. exact Hi.
  - unfold stk, walk_state; cbn [trace].
    rewrite <- !app_assoc. reflexivity.
  - rewrite !paused_states_app, paused_walk_events. reflexivity.
  - unfold p, paused_at; cbn [object_type]. unfold reqk.
    apply ObjectType_walk_request.
  - rewrite !retrieved_requests_app, !length_app, retrieved_walk_events.
    simpl. lia.
  - unfold stk, walk_state; cbn [retrieves]. lia.
Qed.

Lemma pause_fidelity_witness :
  exists st' evs p,
    submit_request Scenario.short_budget 5 Scenario.account init
      = (st', Return tt) /\
    trace st' = (trace init ++ evs ++ [EvPause p])%list /\
    paused_states (evs ++ [EvPause p]) = [p] /\
    continue_request p = RequestID (Scenario.three_pages 1) /\
    object_type p
      = ObjectType (walk_request Scenario.account Scenario.three_pages 0 1) /\
    object_type p = ObjectType Scenario.account /\
    length (retrieved_requests (evs ++ [EvPause p])) = 2 /\
    retrieves st' = retrieves init + 2.
Proof.
  apply (pause_fidelity Scenario.short_budget Scenario.three_pages 1
           Scenario.account init 5).
  - intros i r' _. reflexivity.
  - intros [|[|i]] Hi; [reflexivity | reflexivity | lia].
  - intros i r _. reflexivity.
  - intros [|i] Hi; [reflexivity | lia].
  - reflexivity.
  - intros p. reflexivity.
  - lia.
Defined.

(** ** Transport failures and the attempt budget *)

Lemma body_transport_error submit env req st err :
  Retrieve env (retrieves st) req = inl err ->
  submit_request_body submit env req st
  = (after_retrieve req st,
     Raise (if is_soap_error err then soap_service_fail err else err)).
Proof.
  intros HR. unfold submit_request_body, bind, try_except, service_Retrieve.
  rewrite HR. destruct (is_soap_error err); reflexivity.
Qed.



(** Every attempt of the budget fails in the transport. *)
Lemma retry_loop_all_fail submit env req :
  forall further st errs,
    (forall i, i <= further ->
       Retrieve env (retrieves st + i) req = inl (errs i) /\
       is_soap_error (errs i) = true) ->
    retry_loop further (submit_request_body submit env req) st
    = (mk_state (retrieves st + S further) (pause_checks st) (handled st)
                (pauses st) (trace st ++ failed_attempts req further),
       Raise (RetryError (soap_service_fail (errs further)))).
Proof.
  induction further as [|k IH]; intros st errs H.
  - destruct (H 0 (le_n 0)) as [HR Hs]. rewrite Nat.add_0_r in HR.
    rewrite (retry_loop_exhausted _ st (after_retrieve req st)
               (soap_service_fail (errs 0))).
    + unfold after_retrieve. rewrite Nat.add_1_r. reflexivity.
    + rewrite (body_transport_error _ _ _ _ _ HR), Hs. reflexivity.
    + reflexivity.
  - destruct (H 0 (Nat.le_0_l _)) as [HR Hs]. rewrite Nat.add_0_r in HR.
    rewrite (retry_loop_again k _ st (after_retrieve req st)
               (soap_service_fail (errs 0))).
    + rewrite (IH _ (fun i => errs (S i))).
      * unfold log_event, after_retrieve;
          cbn [retrieves pause_checks handled pauses trace failed_attempts].
        f_equal. f_equal; [lia|].
        rewrite <- !app_assoc. reflexivity.
      * intros i Hi. cbn [log_event after_retrieve retrieves].
        replace (S (retrieves st) + i) with (retrieves st + S i) by lia.
        apply H. lia.
    + rewrite (body_transport_error _ _ _ _ _ HR), Hs. reflexivity.
    + reflexivity.
Qed.

Lemma handled_failed_attempts req n :
  handled_responses (failed_attempts req n) = [].
Proof. induction n; simpl; auto. Qed.

Lemma retrieved_failed_attempts req n :
  length (retrieved_requests (failed_attempts req n)) = S n.
Proof. induction n; simpl; auto. Qed.

Lemma sleeps_failed_attempts req n : sleeps (failed_attempts req n) = n.
Proof.
  induction n as [|n IH]; [reflexivity|].
  unfold sleeps in *; simpl. rewrite IH. reflexivity.
Qed.

(** C4, as the code has it.  With at least one attempt configured, when
    each of the [max_retries] attempts for a page fails in the transport
    with one of the five caught classes, the decorated call raises
    tenacity's [RetryError] holding the [IngestServiceException] of the
    last attempt.  [max_retries] Retrieve calls were made, with a wait
    between consecutive ones, and the handler was not called. *)
Theorem retry_budget_exhausted env fuel req st errs :
  1 <= max_retries env ->
  (forall i, i < max_retries env ->
     Retrieve env (retrieves st + i) req = inl (errs i) /\
     is_soap_error (errs i) = true) ->
  exists st' evs,
    submit_request env (S fuel) req st
    = (st', Raise (RetryError
                     (IngestServiceException "SOAP Service Fail" 0
                        (errs (max_retries env - 1))))) /\
    trace st' = (trace st ++ evs)%list /\
    handled_responses evs = [] /\
    handled st' = handled st /\
    length (retrieved_requests evs) = max_retries env /\
    sleeps evs = max_retries env - 1.
Proof.
  intros HM H.
  exists (mk_state (retrieves st + S (max_retries env - 1)) (pause_checks st)
            (handled st) (pauses st)
            (trace st ++ failed_attempts req (max_retries env - 1))),
         (failed_attempts req (max_retries env - 1)).
  repeat split.
  - cbn [submit_request]. unfold retry.
    apply (retry_loop_all_fail _ env req (max_retries env - 1) st errs).
    intros i Hi. apply H. lia.
  - apply handled_failed_attempts.
  - rewrite retrieved_failed_attempts. lia.
  - apply sleeps_failed_attempts.
Qed.

Lemma retry_budget_exhausted_witness :
  exists st' evs,
    submit_request Outage.env 1 Scenario.account init
    = (st', Raise (RetryError
                     (IngestServiceException "SOAP Service Fail" 0
                        (Outage.failures (max_retries Outage.env - 1))))) /\
    trace st' = (trace init ++ evs)%list /\
    handled_responses evs = [] /\
    handled st' = handled init /\
    length (retrieved_requests evs) = max_retries Outage.env /\
    sleeps evs = max_retries Outage.env - 1.
Proof.
  apply (retry_budget_exhausted Outage.env 0 Scenario.account init
           Outage.failures).
  - simpl. lia.
  - intros [|[|[|i]]] Hi; simpl in *; try (split; reflexivity); lia.
Defined.

(** C4, as the claim states it, fails: after three transport failures with
    three attempts configured, what [submit_request] raises is a
    [RetryError], not an [IngestServiceException]. *)
Lemma retry_budget_counterexample :
  (exists st',
     submit_request Outage.env 1 Scenario.account init
     = (st', Raise (RetryError
                      (IngestServiceException "SOAP Service Fail" 0
                         ClientConnectionError)))) /\
  ~ (exists st' msg code cause,
       submit_request Outage.env 1 Scenario.account init
       = (st', Raise (IngestServiceException msg code cause))).
Proof.
  split.
  - eexists. vm_compute. reflexivity.
  - intros (st' & msg & code & cause & H). vm_compute in H. discriminate H.
Qed.

(** ** Responses that carry an error *)



(** ** Resume *)

Lemma resume_request_eq env fuel paused st :
  resume_request env fuel paused st
  = submit_request env fuel (resumed_request paused) (resumed_state paused st).
Proof.
  unfold resume_request, resumed_state, resumed_request, bind, emit, ret.
  destruct (oauth paused); reflexivity.
Qed.

(** C6.  [resume_request] submits a request made of the paused object type
    and the paused continuation token and of nothing else: no filter (so no
    date bounds), no property list.  When the service then answers
    [Success] and the handler returns, the call returns after that one
    Retrieve call and that one handler call. *)
Theorem resume_correct env fuel paused st :
  resume_request env fuel paused st
  = submit_request env fuel
      (req_base (object_type paused) [] None (continue_request paused))
      (resumed_state paused st) /\
  ObjectType (resumed_request paused) = object_type paused /\
  ContinueRequest (resumed_request paused) = continue_request paused /\
  Filter (resumed_request paused) = None /\
  lower_bound (resumed_request paused) = None /\
  upper_bound (resumed_request paused) = None /\
  (forall r,
     Retrieve env (retrieves (resumed_state paused st)) (resumed_request paused)
     = inr r ->
     OverallStatus r = Some "Success" ->
     response_callback env (handled (resumed_state paused st)) r = None ->
     resume_request env (S fuel) paused st
     = (after_page (resumed_request paused) r (resumed_state paused st),
        Return tt) /\
     handled_responses [EvRetrieve (resumed_request paused); EvHandler r] = [r] /\
     retrieved_requests [EvRetrieve (resumed_request paused); EvHandler r]
     = [resumed_request paused]).
Proof.
  split; [apply resume_request_eq|].
  repeat (split; [reflexivity|]).
  intros r HR HS HC. split; [|split; reflexivity].
  rewrite resume_request_eq.
  apply (submit_request_terminal env fuel _ _ r "Success");
    [exact HR | exact HS | exact Success_not_error | discriminate | exact HC].
Qed.

Lemma resume_correct_witness :
  resume_request Resumption.env 1 Resumption.paused init
  = (mk_state 1 0 1 0
       [EvResumeExtract "oauth-blob";
        EvRetrieve (req_base "Account" [] None (Some "cursor-2"));
        EvHandler Scenario.success],
     Return tt).
Proof.
  destruct (resume_correct Resumption.env 0 Resumption.paused init)
    as (_ & _ & _ & _ & _ & _ & H).
  destruct (H Scenario.success eq_refl eq_refl eq_refl) as [E _].
  exact E.
Defined.

(** ** Building the first request *)

(** C8.  [build_common_request] keeps the object type and the property
    list.  With a non-empty filter field the request carries the filter
    [field between [lower, upper]]: the lower bound is the epoch,
    1970-01-01 00:00:00 UTC, when [start_datetime] is no [datetime] (and
    [start_datetime] itself otherwise), the upper bound is the clock
    reading with tzinfo UTC when [end_datetime] is no [datetime] (and
    [end_datetime] itself otherwise).  With an empty or absent filter field
    the request carries no filter. *)
Theorem build_common_request_bounds utcnow ot props start_dt end_dt field :
  let request := build_common_request utcnow ot props start_dt end_dt field in
  ObjectType request = ot /\
  Properties request = props /\
  ContinueRequest request = None /\
  epoch_utc = mk_datetime 1970 1 1 0 0 0 0 (Some pytz_utc) /\
  (forall f, field = Some f -> f <> "" ->
     (exists lower upper,
        Filter request = Some (filter_base f "between" [lower; upper])) /\
     (isinstance_datetime start_dt = false ->
        lower_bound request = Some (PyDatetime epoch_utc)) /\
     (isinstance_datetime start_dt = true ->
        lower_bound request = Some start_dt) /\
     (isinstance_datetime end_dt = false ->
        upper_bound request
        = Some (PyDatetime (replace_tzinfo utcnow pytz_utc))) /\
     (isinstance_datetime end_dt = true ->
        upper_bound request = Some end_dt)) /\
  (field = None \/ field = Some "" -> Filter request = None).
Proof.
  intros request. unfold request, build_common_request.
  repeat (split; [reflexivity|]).
  split.
  - intros f -> Hf. unfold lower_bound, upper_bound; cbn [Filter].
    destruct (String.eqb_spec f "") as [E|_]; [contradiction|].
    repeat split; try (intros Hs; rewrite Hs; reflexivity).
    eexists _, _. reflexivity.
  - intros [->| ->]; reflexivity.
Qed.

Lemma build_common_request_bounds_witness :
  build_common_request Clock.now "Account" ["Id"; "Name"] PyNone (PyStr "soon")
    (Some "ModifiedDate")
  = req_base "Account" ["Id"; "Name"]
      (Some (filter_base "ModifiedDate" "between"
               [PyDatetime (mk_datetime 1970 1 1 0 0 0 0 (Some pytz_utc));
                PyDatetime (mk_datetime 2024 5 17 9 30 0 0 (Some pytz_utc))]))
      None /\
  lower_bound
    (build_common_request Clock.now "Account" ["Id"; "Name"] PyNone
       Clock.new_year (Some "ModifiedDate"))
  = Some (PyDatetime epoch_utc) /\
  Filter
    (build_common_request Clock.now "Account" ["Id"; "Name"] PyNone PyNone
       (Some ""))
  = None.
Proof.
  pose proof (build_common_request_bounds Clock.now "Account" ["Id"; "Name"]
                PyNone Clock.new_year (Some "ModifiedDate")) as Hfiltered.
  pose proof (build_common_request_bounds Clock.now "Account" ["Id"; "Name"]
                PyNone PyNone (Some "")) as Hbare.
  cbv zeta in Hfiltered, Hbare.
  destruct Hfiltered as (_ & _ & _ & _ & Hfiltered & _).
  destruct Hbare as (_ & _ & _ & _ & _ & Hbare).
  split; [reflexivity|]. split.
  - destruct (Hfiltered "ModifiedDate" eq_refl) as (_ & Hlower & _).
    + discriminate.
    + apply Hlower. reflexivity.
  - apply Hbare. right. reflexivity.
Defined.

(** ** Statuses that are neither an error nor a request for more *)

(** C10.  For a response whose status is present and does not start with
    ['Error'], under a handler that returns: the attempt is one Retrieve
    call, one handler call with that response, then whatever
    [_submit_next_request] does.  [_submit_next_request] does nothing
    unless the status is exactly ['MoreDataAvailable']: with any other
    status the decorated call returns after those two events; with that
    status and budget left it goes on with the request for the next page. *)
Theorem non_error_status_dispatch env fuel req st r s :
  Retrieve env (retrieves st) req = inr r ->
  OverallStatus r = Some s ->
  startswith "Error" s = false ->
  response_callback env (handled st) r = None ->
  (forall submit,
     submit_request_body submit env req st
     = _submit_next_request submit env req r (after_page req r st)) /\
  trace (after_page req r st)
  = (trace st ++ [EvRetrieve req; EvHandler r])%list /\
  handled (after_page req r st) = S (handled st) /\
  (s <> "MoreDataAvailable" ->
     (forall submit st2,
        _submit_next_request submit env req r st2 = (st2, Return tt)) /\
     submit_request env (S fuel) req st = (after_page req r st, Return tt)) /\
  (s = "MoreDataAvailable" ->
     is_it_time_to_pause env (pause_checks st) = false ->
     submit_request env (S fuel) req st
     = submit_request env fuel (next_request req r) (after_boundary req r st)).
Proof.
  intros HR HS HE HC.
  split; [|split; [|split; [|split]]].
  - intros submit. apply (body_dispatch submit env req st r s); assumption.
  - reflexivity.
  - reflexivity.
  - intros HN. split.
    + intros submit st2. apply (next_terminal submit env req r s st2); assumption.
    + apply (submit_request_terminal env fuel req st r s); assumption.
  - intros -> HP. apply submit_request_continue; assumption.
Qed.

Lemma non_error_status_dispatch_witness :
  submit_request Resumption.odd 4 Scenario.account init
  = (mk_state 1 0 1 0
       [EvRetrieve Scenario.account; EvHandler Resumption.odd_status],
     Return tt).
Proof.
  destruct (non_error_status_dispatch Resumption.odd 3 Scenario.account init
              Resumption.odd_status "moredataavailable"
              eq_refl eq_refl eq_refl eq_refl)
    as (_ & _ & _ & Hterminal & _).
  destruct Hterminal as [_ H]; [discriminate|].
  exact H.
Defined.

(** ** Where a paused dictionary can come from *)

Lemma pauses_justified_weaken prev evs :
  pauses_justified None evs -> pauses_justified prev evs.
Proof. destruct evs as [|[]]; simpl; tauto. Qed.

Lemma pauses_justified_app :
  forall evs1 prev evs2,
    pauses_justified prev evs1 ->
    pauses_justified None evs2 ->
    pauses_justified prev (evs1 ++ evs2).
Proof.
  induction evs1 as [|ev evs1 IH]; intros prev evs2 H1 H2.
  - apply pauses_justified_weaken. exact H2.
  - destruct ev; simpl in *; try (apply IH; assumption).
    destruct H1 as [Hp H1]. split; [exact Hp | apply IH; assumption].
Qed.

(** The invariant, read off a trace: a pause event has a predecessor, the
    predecessor is a handler call, and its response justifies the pause. *)
Lemma pauses_justified_inv :
  forall pre evs prev p post,
    pauses_justified prev evs ->
    evs = (pre ++ EvPause p :: post)%list ->
    (pre = [] /\
     exists r, prev = Some r /\
               OverallStatus r = Some "MoreDataAvailable" /\
               continue_request p = RequestID r) \/
    (exists pre' r,
        pre = (pre' ++ [EvHandler r])%list /\
        OverallStatus r = Some "MoreDataAvailable" /\
        continue_request p = RequestID r).
Proof.
  induction pre as [|ev pre IH]; intros evs prev p post H ->.
  - left. split; [reflexivity|]. simpl in H. destruct prev as [r|].
    + exists r. tauto.
    + tauto.
  - right.
    assert (Hrest : exists prev',
               pauses_justified prev' (pre ++ EvPause p :: post) /\
               forall r, prev' = Some r -> ev = EvHandler r).
    { destruct ev; simpl in H.
      - exists None. split; [exact H | discriminate].
      - exists (Some resp). split; [exact H|]. intros r [= ->]. reflexivity.
      - exists None. split; [tauto | discriminate].
      - exists None. split; [exact H | discriminate].
      - exists None. split; [exact H | discriminate]. }
    destruct Hrest as (prev' & Hj & Hprev).
    destruct (IH _ prev' p post Hj eq_refl)
      as [(-> & r & Hr & Hs & Ht) | (pre' & r & -> & Hs & Ht)].
    + exists [], r. rewrite (Hprev r Hr). auto.
    + exists (ev :: pre'), r. auto.
Qed.

Lemma grows_retry_loop {A} (fn : M A) :
  grows None fn -> forall further, grows None (retry_loop further fn).
Proof.
  intros Hfn. induction further as [|k IH]; intros st st' o H; simpl in H;
    destruct (fn st) as [st1 [a|e|]] eqn:E;
    try (inversion H; subst; eapply Hfn; eassumption);
    destruct (retry_if_exception_type e);
    try (inversion H; subst; eapply Hfn; eassumption).
  destruct (Hfn _ _ _ E) as (evs1 & Ht1 & Hj1).
  destruct (IH _ _ _ H) as (evs2 & Ht2 & Hj2).
  exists (evs1 ++ EvSleep :: evs2)%list. split.
  - rewrite Ht2. cbn [log_event trace]. rewrite Ht1, <- !app_assoc. reflexivity.
  - apply pauses_justified_app; [exact Hj1 | exact Hj2].
Qed.

Lemma grows_next submit env req r :
  (forall q, grows None (submit q)) ->
  grows (Some r) (_submit_next_request submit env req r).
Proof.
  intros Hs st st' o H. unfold _submit_next_request in H.
  destruct (OverallStatus r) as [s|] eqn:HS.
  - destruct (String.eqb_spec s "MoreDataAvailable") as [->|_].
    + unfold bind, call_is_it_time_to_pause in H.
      destruct (is_it_time_to_pause env (pause_checks st)).
      * unfold call_pause_callback in H. inversion H; subst; clear H.
        eexists [_]. cbn [trace]. split; [reflexivity|]. simpl. auto.
      * destruct (Hs _ _ _ _ H) as (evs & Ht & Hj).
        exists evs. split; [exact Ht | apply pauses_justified_weaken, Hj].
    + inversion H; subst. exists []. rewrite app_nil_r. simpl. auto.
  - inversion H; subst. exists []. rewrite app_nil_r. simpl. auto.
Qed.

Lemma grows_body submit env req :
  (forall q, grows None (submit q)) ->
  grows None (submit_request_body submit env req).
Proof.
  intros Hs st st' o H.
  unfold submit_request_body, bind, try_except, service_Retrieve in H.
  destruct (Retrieve env (retrieves st) req) as [err|r].
  - exists [EvRetrieve req]. split; [|simpl; auto].
    destruct (is_soap_error err); inversion H; subst; reflexivity.
  - destruct (OverallStatus r) as [s|] eqn:HS.
    + destruct (startswith "Error" s).
      * inversion H; subst. exists [EvRetrieve req]. simpl; auto.
      * unfold gather, call_response_callback in H.
        cbn [retrieves pause_checks handled pauses trace] in H.
        match type of H with
        | context [_submit_next_request ?f ?e ?q ?resp ?s1] =>
            destruct (_submit_next_request f e q resp s1) as [st2 o2] eqn:E2
        end.
        destruct (grows_next _ _ _ _ Hs _ _ _ E2) as (evs & Ht & Hj).
        exists (EvRetrieve req :: EvHandler r :: evs). split.
        -- inversion H; subst. rewrite Ht. cbn [trace].
           rewrite <- !app_assoc. reflexivity.
        -- simpl. exact Hj.
    + inversion H; subst. exists [EvRetrieve req]. simpl; auto.
Qed.

Lemma grows_submit_request env :
  forall fuel req, grows None (submit_request env fuel req).
Proof.
  induction fuel as [|f IH]; intros req.
  - intros st st' o H. inversion H; subst. exists []. rewrite app_nil_r.
    simpl. auto.
  - cbn [submit_request]. unfold retry. apply grows_retry_loop.
    apply grows_body. exact IH.
Qed.



(** ** The scope of the retry *)

Lemma body_not_retryable env fuel req :
  (forall k r e, response_callback env k r = Some e ->
                 retry_if_exception_type e = false) ->
  (forall k p e, pause_callback env k p = Some e ->
                 retry_if_exception_type e = false) ->
  forall r st st' e,
    (match OverallStatus r with
     | None =>
         raise (IngestDataRetrieveException
                  ("Invalid Response " ++ str_response env r))
     | Some status =>
         if startswith "Error" status then
           raise (IngestDataRetrieveException
                    ("Status Error in Response " ++ status))
         else
           gather (call_response_callback env r)
                  (_submit_next_request (submit_request env fuel) env req r)
     end) st = (st', Raise e) ->
    retry_if_exception_type e = false.
Proof.
  intros Hh Hp r st st' e H.
  destruct (OverallStatus r) as [s|] eqn:HS;
    [destruct (startswith "Error" s)|];
    try (inversion H; subst; reflexivity).
  unfold gather, call_response_callback in H.
  cbn [retrieves pause_checks handled pauses trace] in H.
  match type of H with
  | context [_submit_next_request ?f ?e ?q ?resp ?s1] =>
      destruct (_submit_next_request f e q resp s1) as [st2 o2] eqn:E2
  end.
  destruct (response_callback env (handled st) r) as [eh|] eqn:EH.
  - destruct o2; inversion H; subst; eapply Hh; eassumption.
  - assert (o2 = Raise e) as -> by (destruct o2; inversion H; reflexivity).
    clear H. unfold _submit_next_request in E2. rewrite HS in E2.
    destruct (String.eqb s "MoreDataAvailable"); [|discriminate].
    unfold bind, call_is_it_time_to_pause in E2.
    match type of E2 with
    | context [is_it_time_to_pause ?e ?k] =>
        destruct (is_it_time_to_pause e k)
    end.
    + unfold call_pause_callback in E2.
      cbn [retrieves pause_checks handled pauses trace] in E2.
      match type of E2 with
      | context [pause_callback ?e ?k ?p] =>
          destruct (pause_callback e k p) as [ep|] eqn:EP
      end; inversion E2; subst. eapply Hp; eassumption.
    + eapply submit_request_not_retryable; eassumption.
Qed.

Lemma submit_request_body_halves submit env req :
  submit_request_body submit env req
  = bind (guarded_Retrieve env req) (after_response submit env req).
Proof. reflexivity. Qed.

Lemma submit_external_retry_body_halves submit env req :
  submit_external_retry_body submit env req
  = bind (retry env (guarded_Retrieve env req)) (after_response submit env req).
Proof. reflexivity. Qed.

Lemma after_response_ext sub1 sub2 env req r st :
  (forall q st0, sub1 q st0 = sub2 q st0) ->
  after_response sub1 env req r st = after_response sub2 env req r st.
Proof.
  intros Heq. unfold after_response.
  destruct (OverallStatus r) as [s|] eqn:HS; [|reflexivity].
  destruct (startswith "Error" s); [reflexivity|].
  unfold gather.
  destruct (call_response_callback env r st) as [st1 o1].
  assert (E : _submit_next_request sub1 env req r st1
              = _submit_next_request sub2 env req r st1).
  { unfold _submit_next_request. rewrite HS.
    destruct (String.eqb s "MoreDataAvailable"); [|reflexivity].
    unfold bind. destruct (call_is_it_time_to_pause env st1) as [st2 [[|]|e|]];
      try reflexivity.
    apply Heq. }
  rewrite E. reflexivity.
Qed.

(** When nothing below the [try] statement raises an exception the retry
    predicate accepts, retrying the attempt is retrying its [try]
    statement. *)
Lemma retry_loop_scope sub1 sub2 env req :
  (forall q st0, sub1 q st0 = sub2 q st0) ->
  (forall r st0 st' e,
     after_response sub1 env req r st0 = (st', Raise e) ->
     retry_if_exception_type e = false) ->
  forall n st,
    retry_loop n (bind (guarded_Retrieve env req) (after_response sub1 env req)) st
    = bind (retry_loop n (guarded_Retrieve env req))
        (after_response sub2 env req) st.
Proof.
  intros Heq Hrest. induction n as [|n IH]; intros st.
  - unfold bind at 2. simpl.
    unfold bind at 1.
    destruct (guarded_Retrieve env req st) as [st1 [r|e|]] eqn:E.
    + rewrite <- (after_response_ext sub1 sub2) by exact Heq.
      destruct (after_response sub1 env req r st1) as [st2 [[]|e2|]] eqn:E2;
        try reflexivity.
      rewrite (Hrest _ _ _ _ E2). reflexivity.
    + destruct (retry_if_exception_type e); reflexivity.
    + reflexivity.
  - unfold bind at 2. simpl.
    unfold bind at 1.
    destruct (guarded_Retrieve env req st) as [st1 [r|e|]] eqn:E.
    + rewrite <- (after_response_ext sub1 sub2) by exact Heq.
      destruct (after_response sub1 env req r st1) as [st2 [[]|e2|]] eqn:E2;
        try reflexivity.
      rewrite (Hrest _ _ _ _ E2). reflexivity.
    + destruct (retry_if_exception_type e); [|reflexivity].
      rewrite IH. reflexivity.
    + reflexivity.
Qed.




(** ** The scenario of the specification *)

(** [build("Account", ["Id", "Name"], none, none)], then three answers
    [MoreDataAvailable], [MoreDataAvailable], [Success]: three handler
    calls, three Retrieve calls, no pause, no wait. *)
Example account_three_pages :
  let request :=
    build_common_request Clock.now "Account" ["Id"; "Name"] PyNone PyNone
      (Some "ModifiedDate") in
  let run := submit_request Scenario.calm 3 request init in
  snd run = Return tt /\
  handled_responses (trace (fst run))
  = [Scenario.more "cursor-1"; Scenario.more "cursor-2"; Scenario.success] /\
  retrieved_requests (trace (fst run))
  = [request;
     req_base "Account" [] None (Some "cursor-1");
     req_base "Account" [] None (Some "cursor-2")] /\
  paused_states (trace (fst run)) = [] /\
  sleeps (trace (fst run)) = 0.
Proof. repeat split. Qed.

(** [RetrieveSend.get()] with its defaults asks for the ["Send"] objects
    modified between the epoch and now. *)
Example RetrieveSend_get_first_request :
  retrieved_requests
    (trace (fst (RetrieveSend_get Resumption.env Clock.now 1
                   (PyDatetime (mk_datetime 1970 1 1 0 0 0 0 None)) PyNone
                   init)))
  = [req_base "Send" RetrieveSend_properties
       (Some (filter_base "ModifiedDate" "between"
                [PyDatetime (mk_datetime 1970 1 1 0 0 0 0 None);
                 PyDatetime (mk_datetime 2024 5 17 9 30 0 0 (Some pytz_utc))]))
       None].
Proof. reflexivity. Qed.

(** * Further properties of the retrieval engine *)

(** ** An induction principle for runs *)

(** A relation between the state before and the state after that holds
    across each block of [submit_request] holds across every run. *)
Section RunInvariant.

Variable env : Env.
Variable R : RetrieveRequest -> State -> State -> Prop.

Hypothesis R_refl : forall q st, R q st st.
Hypothesis R_trans : forall q a b c, R q a b -> R q b c -> R q a c.
Hypothesis R_retrieve : forall q st, R q st (after_retrieve q st).
Hypothesis R_sleep : forall q st, R q st (log_event EvSleep st).
Hypothesis R_handler :
  forall q r st, R q st (handler_called env r (after_retrieve q st)).
Hypothesis R_check :
  forall q r st, R q st (checked (handler_called env r (after_retrieve q st))).
Hypothesis R_pause :
  forall q r st, R q st (pause_notified env q r (after_retrieve q st)).
Hypothesis R_next : forall q r a b, R (next_request q r) a b -> R q a b.

Lemma run_invariant_retry_loop {A} (fn : M A) q :
  (forall st, R q st (fst (fn st))) ->
  forall further st, R q st (fst (retry_loop further fn st)).
Proof.
  intros Hfn. induction further as [|k IH]; intros st; simpl;
    pose proof (Hfn st) as H0;
    destruct (fn st) as [st1 [a|e|]]; try exact H0;
    destruct (retry_if_exception_type e); try exact H0.
  apply (R_trans q st st1); [exact H0|].
  apply (R_trans q st1 (log_event EvSleep st1)); [apply R_sleep | apply IH].
Qed.

Lemma run_invariant_dispatch submit q r :
  (forall q' st, R q' st (fst (submit q' st))) ->
  forall st,
    R q st (fst (gather (call_response_callback env r)
                        (_submit_next_request submit env q r)
                        (after_retrieve q st))).
Proof.
  intros Hs st. unfold gather.
  destruct (call_response_callback env r (after_retrieve q st))
    as [st1 o1] eqn:E1.
  assert (Hst1 : st1 = handler_called env r (after_retrieve q st))
    by (unfold handler_called; rewrite E1; reflexivity).
  destruct (_submit_next_request submit env q r st1) as [st2 o2] eqn:E2.
  cbn [fst]. unfold _submit_next_request in E2.
  destruct (OverallStatus r) as [s|].
  - destruct (String.eqb s "MoreDataAvailable").
    + unfold bind, call_is_it_time_to_pause in E2.
      change (mk_state (retrieves st1) (S (pause_checks st1)) (handled st1)
                (pauses st1) (trace st1)) with (checked st1) in E2.
      destruct (is_it_time_to_pause env (pause_checks st1)).
      * replace st2 with (pause_notified env q r (after_retrieve q st));
          [apply R_pause|].
        unfold pause_notified. rewrite <- Hst1, E2. reflexivity.
      * apply (R_trans q st (checked st1)).
        -- rewrite Hst1. apply R_check.
        -- apply (R_next q r).
           pose proof (Hs (next_request q r) (checked st1)) as H.
           unfold next_request in *. rewrite E2 in H. exact H.
    + inversion E2; subst st2. rewrite Hst1. apply R_handler.
  - inversion E2; subst st2. rewrite Hst1. apply R_handler.
Qed.

Lemma run_invariant_body submit q :
  (forall q' st, R q' st (fst (submit q' st))) ->
  forall st, R q st (fst (submit_request_body submit env q st)).
Proof.
  intros Hs st.
  unfold submit_request_body, bind, try_except, service_Retrieve.
  change (mk_state (S (retrieves st)) (pause_checks st) (handled st)
            (pauses st) (trace st ++ [EvRetrieve q]))
    with (after_retrieve q st).
  destruct (Retrieve env (retrieves st) q) as [err|r].
  - destruct (is_soap_error err); apply R_retrieve.
  - destruct (OverallStatus r) as [s|] eqn:HS.
    + destruct (startswith "Error" s); [apply R_retrieve|].
      apply run_invariant_dispatch. exact Hs.
    + apply R_retrieve.
Qed.

Lemma run_invariant :
  forall fuel q st, R q st (fst (submit_request env fuel q st)).
Proof.
  induction fuel as [|f IH]; intros q st.
  - apply R_refl.
  - cbn [submit_request]. unfold retry. apply run_invariant_retry_loop.
    apply run_invariant_body. exact IH.
Qed.

End RunInvariant.

(** ** What a run sends *)

Lemma sends_only_refl q st : sends_only q st st.
Proof. exists []. rewrite app_nil_r. split; [reflexivity | constructor]. Qed.

Lemma sends_only_trans q a b c :
  sends_only q a b -> sends_only q b c -> sends_only q a c.
Proof.
  intros (e1 & T1 & F1) (e2 & T2 & F2). exists (e1 ++ e2)%list. split.
  - rewrite T2, T1, app_assoc. reflexivity.
  - rewrite retrieved_requests_app. apply Forall_app. split; assumption.
Qed.

Lemma sends_only_next q r a b :
  sends_only (next_request q r) a b -> sends_only q a b.
Proof.
  intros (evs & T & F). exists evs. split; [exact T|].
  eapply Forall_impl; [|exact F]. intros x [->|(Ho & Hp & Hf)]; right.
  - repeat split.
  - repeat split; assumption.
Qed.

Lemma sends_only_submit_request env fuel q st :
  sends_only q st (fst (submit_request env fuel q st)).
Proof.
  apply (run_invariant env sends_only).
  - apply sends_only_refl.
  - apply sends_only_trans.
  - intros q0 st0. exists [EvRetrieve q0]. split; [reflexivity|].
    repeat constructor.
  - intros q0 st0. exists [EvSleep]. split; [reflexivity | constructor].
  - intros q0 r st0. exists [EvRetrieve q0; EvHandler r]. split.
    + cbn. rewrite <- app_assoc. reflexivity.
    + repeat constructor.
  - intros q0 r st0. exists [EvRetrieve q0; EvHandler r]. split.
    + cbn. rewrite <- app_assoc. reflexivity.
    + repeat constructor.
  - intros q0 r st0.
    exists [EvRetrieve q0; EvHandler r;
            EvPause (mk_paused (Some (pause_extract env (pauses st0)))
                       (ObjectType q0) (RequestID r))].
    split.
    + cbn. rewrite <- !app_assoc. reflexivity.
    + repeat constructor.
  - apply sends_only_next.
Qed.




(** ** How often the collaborators are called *)

Lemma accounted_refl st : accounted st st.
Proof.
  exists []. rewrite app_nil_r. simpl. repeat split; lia.
Qed.

Lemma accounted_trans a b c : accounted a b -> accounted b c -> accounted a c.
Proof.
  intros (e1 & T1 & A1) (e2 & T2 & A2). exists (e1 ++ e2)%list. split.
  - rewrite T2, T1, app_assoc. reflexivity.
  - rewrite retrieved_requests_app, handled_responses_app, paused_states_app,
      !length_app. lia.
Qed.

Lemma accounted_submit_request env fuel q st :
  accounted st (fst (submit_request env fuel q st)).
Proof.
  apply (run_invariant env (fun _ => accounted)).
  - intros _. apply accounted_refl.
  - intros _. apply accounted_trans.
  - intros q0 st0. exists [EvRetrieve q0]. simpl. repeat split; lia.
  - intros _ st0. exists [EvSleep]. simpl. repeat split; lia.
  - intros q0 r st0. exists [EvRetrieve q0; EvHandler r]. cbn.
    rewrite <- app_assoc. repeat split; lia.
  - intros q0 r st0. exists [EvRetrieve q0; EvHandler r]. cbn.
    rewrite <- app_assoc. repeat split; lia.
  - intros q0 r st0.
    exists [EvRetrieve q0; EvHandler r;
            EvPause (mk_paused (Some (pause_extract env (pauses st0)))
                       (ObjectType q0) (RequestID r))].
    cbn. rewrite <- !app_assoc. repeat split; lia.
  - intros _ _ a b H. exact H.
Qed.


(** X5.  The decorated [submit_request] never raises
    [IngestServiceException]: the wrapper either starts a new attempt or,
    once the attempts are used up, raises [RetryError] in its place. *)
Theorem submit_request_never_transient env fuel req st st' e :
  submit_request env fuel req st = (st', Raise e) ->
  retry_if_exception_type e = false /\
  forall msg code cause, e <> IngestServiceException msg code cause.
Proof.
  intros H. apply submit_request_not_retryable in H. split; [exact H|].
  intros msg code cause ->. discriminate H.
Qed.

Lemma submit_request_never_transient_witness :
  retry_if_exception_type
    (RetryError (IngestServiceException "SOAP Service Fail" 0
                   ClientConnectionError)) = false /\
  forall msg code cause,
    RetryError (IngestServiceException "SOAP Service Fail" 0
                  ClientConnectionError)
    <> IngestServiceException msg code cause.
Proof.
  apply (submit_request_never_transient Outage.env 1 Scenario.account init
           (mk_state 3 0 0 0
              [EvRetrieve Scenario.account; EvSleep;
               EvRetrieve Scenario.account; EvSleep;
               EvRetrieve Scenario.account])).
  reflexivity.
Defined.

(** ** Attempts that fail, then one that does not *)

Lemma after_retries_0 req st : after_retries req 0 st = st.
Proof.
  destruct st. unfold after_retries; simpl.
  rewrite Nat.add_0_r, app_nil_r. reflexivity.
Qed.

Lemma after_retries_S req j st :
  after_retries req j (log_event EvSleep (after_retrieve req st))
  = after_retries req (S j) st.
Proof.
  unfold after_retries, log_event, after_retrieve; simpl.
  rewrite <- !app_assoc, <- plus_n_Sm. reflexivity.
Qed.

(** [j] attempts that fail in the transport use up [j] of the attempts. *)
Lemma retry_loop_after_failures submit env req :
  forall j further st errs,
    j <= further ->
    (forall i, i < j ->
       Retrieve env (retrieves st + i) req = inl (errs i) /\
       is_soap_error (errs i) = true) ->
    retry_loop further (submit_request_body submit env req) st
    = retry_loop (further - j) (submit_request_body submit env req)
        (after_retries req j st).
Proof.
  induction j as [|j IH]; intros further st errs Hj H.
  - rewrite after_retries_0, Nat.sub_0_r. reflexivity.
  - destruct further as [|f]; [lia|].
    destruct (H 0 (Nat.lt_0_succ j)) as [HR Hs]. rewrite Nat.add_0_r in HR.
    rewrite (retry_loop_again f _ st (after_retrieve req st)
               (soap_service_fail (errs 0))).
    + rewrite (IH f _ (fun i => errs (S i))).
      * rewrite after_retries_S. reflexivity.
      * lia.
      * intros i Hi. cbn [log_event after_retrieve retrieves].
        replace (S (retrieves st) + i) with (retrieves st + S i) by lia.
        apply H. lia.
    + rewrite (body_transport_error _ _ _ _ _ HR), Hs. reflexivity.
    + reflexivity.
Qed.

Lemma handled_retried_events req j : handled_responses (retried_events req j) = [].
Proof. induction j; simpl; auto. Qed.

Lemma sleeps_retried_events req j : sleeps (retried_events req j) = j.
Proof.
  induction j as [|j IH]; [reflexivity|].
  unfold sleeps in *; simpl. rewrite IH. reflexivity.
Qed.

Lemma retrieved_retried_events req j :
  retrieved_requests (retried_events req j) = repeat req j.
Proof. induction j as [|j IH]; simpl; [|rewrite IH]; reflexivity. Qed.

(** X6.  When the first [j] attempts for a page fail in the transport with
    a caught class, [j] being less than the configured maximum, and the
    next attempt gets a response with a terminal, non-error status, the
    call returns: the page was requested [j+1] times with [j] waits in
    between, and the handler was called once, with the response of the
    attempt that succeeded. *)
Theorem retry_recovers env fuel req st errs j r s :
  j < max_retries env ->
  (forall i, i < j ->
     Retrieve env (retrieves st + i) req = inl (errs i) /\
     is_soap_error (errs i) = true) ->
  Retrieve env (retrieves st + j) req = inr r ->
  OverallStatus r = Some s ->
  startswith "Error" s = false ->
  s <> "MoreDataAvailable" ->
  response_callback env (handled st) r = None ->
  submit_request env (S fuel) req st
  = (mk_state (retrieves st + S j) (pause_checks st) (S (handled st))
              (pauses st)
              (trace st ++ retried_events req j
                 ++ [EvRetrieve req; EvHandler r]),
     Return tt) /\
  handled_responses (retried_events req j ++ [EvRetrieve req; EvHandler r])
  = [r] /\
  retrieved_requests (retried_events req j ++ [EvRetrieve req; EvHandler r])
  = repeat req (S j) /\
  sleeps (retried_events req j ++ [EvRetrieve req; EvHandler r]) = j.
Proof.
  intros Hj H HR HS HE HN HC. split; [|split; [|split]].
  - cbn [submit_request]. unfold retry.
    rewrite (retry_loop_after_failures _ env req j _ st errs) by (lia || exact H).
    assert (E : submit_request_body (submit_request env fuel) env req
                  (after_retries req j st)
                = (after_page req r (after_retries req j st), Return tt)).
    { rewrite (body_dispatch _ env req (after_retries req j st) r s);
        try assumption.
      eapply next_terminal; eassumption. }
    rewrite retry_loop_through.
    + rewrite E. unfold after_page, after_retries;
        cbn [retrieves pause_checks handled pauses trace].
      rewrite <- app_assoc, <- plus_n_Sm. reflexivity.
    + intros st' e He. rewrite E in He. discriminate He.
  - rewrite handled_responses_app, handled_retried_events. reflexivity.
  - rewrite retrieved_requests_app, retrieved_retried_events.
    cbn [retrieved_requests flat_map app].
    rewrite <- repeat_cons. reflexivity.
  - unfold sleeps. rewrite filter_app, length_app.
    fold (sleeps (retried_events req j)). rewrite sleeps_retried_events.
    simpl. lia.
Qed.

Lemma retry_recovers_witness :
  submit_request Recovering.env 1 Scenario.account init
  = (mk_state 3 0 1 0
       [EvRetrieve Scenario.account; EvSleep;
        EvRetrieve Scenario.account; EvSleep;
        EvRetrieve Scenario.account; EvHandler Scenario.success],
     Return tt).
Proof.
  destruct (retry_recovers Recovering.env 0 Scenario.account init
              (fun _ => ServerTimeoutError) 2 Scenario.success "Success")
    as [E _].
  - simpl. lia.
  - intros [|[|i]] Hi; try (split; reflexivity); lia.
  - reflexivity.
  - reflexivity.
  - reflexivity.
  - discriminate.
  - reflexivity.
  - exact E.
Defined.

(** X7.  An exception of the result handler that is not of the transient
    class is raised to the caller as it is, after one Retrieve call and one
    handler call: no wait and no second attempt (terminal status). *)
Theorem handler_error_propagates env fuel req st r s e :
  Retrieve env (retrieves st) req = inr r ->
  OverallStatus r = Some s ->
  startswith "Error" s = false ->
  s <> "MoreDataAvailable" ->
  response_callback env (handled st) r = Some e ->
  retry_if_exception_type e = false ->
  submit_request env (S fuel) req st = (after_page req r st, Raise e) /\
  sleeps [EvRetrieve req; EvHandler r] = 0.
Proof.
  intros HR HS HE HN HC Hp. split; [|reflexivity].
  assert (E : submit_request_body (submit_request env fuel) env req st
              = (after_page req r st, Raise e)).
  { unfold submit_request_body, bind, try_except, service_Retrieve.
    rewrite HR, HS, HE. unfold gather, call_response_callback.
    cbn [retrieves pause_checks handled pauses trace].
    rewrite HC, (next_terminal _ env req r s) by assumption.
    unfold after_page. rewrite <- app_assoc. reflexivity. }
  cbn [submit_request]. rewrite retry_through; [exact E|].
  intros st' e' H. rewrite E in H. inversion H; subst. exact Hp.
Qed.

Lemma handler_error_propagates_witness :
  submit_request Recovering.broken_handler 1 Scenario.account init
  = (after_page Scenario.account Scenario.success init,
     Raise (OtherException "IOError")).
Proof.
  apply (handler_error_propagates Recovering.broken_handler 0 Scenario.account
           init Scenario.success "Success" (OtherException "IOError"));
    try reflexivity.
  discriminate.
Defined.

(** ** Failures on a later page *)

Lemma submit_request_status_error env fuel req st r s :
  Retrieve env (retrieves st) req = inr r ->
  OverallStatus r = Some s ->
  startswith "Error" s = true ->
  submit_request env (S fuel) req st
  = (after_retrieve req st,
     Raise (IngestDataRetrieveException ("Status Error in Response " ++ s))).
Proof.
  intros HR HS HE.
  assert (E : submit_request_body (submit_request env fuel) env req st
              = (after_retrieve req st,
                 Raise (IngestDataRetrieveException
                          ("Status Error in Response " ++ s)))).
  { unfold submit_request_body, bind, try_except, service_Retrieve.
    rewrite HR, HS, HE. reflexivity. }
  cbn [submit_request]. rewrite retry_through; [exact E|].
  intros st' e H. rewrite E in H. inversion H; subst. reflexivity.
Qed.

(** X8.  Each page has its own attempts.  When pages 0..N-1 went through
    and every attempt for page N fails in the transport, the [RetryError]
    of page N reaches the caller of the first [submit_request] unchanged:
    no earlier page is requested again, the handler was called once for
    each of the N earlier pages, and N + [max_retries] Retrieve calls were
    made in all. *)
Theorem later_page_outage env pages N req st fuel errs :
  1 <= max_retries env ->
  (forall i r', i < N -> Retrieve env (retrieves st + i) r' = inr (pages i)) ->
  (forall i, i < N -> OverallStatus (pages i) = Some "MoreDataAvailable") ->
  (forall i r, i < N -> response_callback env (handled st + i) r = None) ->
  (forall i, i < N -> is_it_time_to_pause env (pause_checks st + i) = false) ->
  (forall i r', i < max_retries env ->
     Retrieve env (retrieves st + N + i) r' = inl (errs i) /\
     is_soap_error (errs i) = true) ->
  N < fuel ->
  exists st' evs,
    submit_request env fuel req st
    = (st', Raise (RetryError
                     (IngestServiceException "SOAP Service Fail" 0
                        (errs (max_retries env - 1))))) /\
    trace st' = (trace st ++ evs)%list /\
    handled_responses evs = map pages (seq 0 N) /\
    length (retrieved_requests evs) = N + max_retries env /\
    retrieves st' = retrieves st + N + max_retries env.
Proof.
  intros HM HR HS HC HP HF Hf.
  set (reqN := walk_request req pages 0 N).
  set (stN := walk_state req pages 0 N st).
  exists (mk_state (retrieves stN + S (max_retries env - 1)) (pause_checks stN)
            (handled stN) (pauses stN)
            (trace stN ++ failed_attempts reqN (max_retries env - 1))),
         (walk_events req pages 0 N
            ++ failed_attempts reqN (max_retries env - 1))%list.
  split; [|split; [|split; [|split]]].
  - replace fuel with (N + S (fuel - S N)) by lia.
    rewrite (submit_request_walk env pages N req st 0 (S (fuel - S N)));
      try assumption.
    cbn [submit_request]. unfold retry.
    apply (retry_loop_all_fail _ env reqN (max_retries env - 1) stN errs).
    intros i Hi. unfold stN, walk_state; cbn [retrieves]. apply HF. lia.
  - unfold stN, walk_state; cbn [trace]. rewrite <- app_assoc. reflexivity.
  - rewrite handled_responses_app, handled_walk_events,
      handled_failed_attempts, app_nil_r. reflexivity.
  - rewrite retrieved_requests_app, length_app, retrieved_walk_events,
      retrieved_failed_attempts. lia.
  - unfold stN, walk_state; cbn [retrieves]. lia.
Qed.

Lemma later_page_outage_witness :
  exists st' evs,
    submit_request LaterPage.outage 2 Scenario.account init
    = (st', Raise (RetryError
                     (IngestServiceException "SOAP Service Fail" 0
                        ClientConnectionError))) /\
    trace st' = (trace init ++ evs)%list /\
    handled_responses evs = map LaterPage.outage_pages (seq 0 1) /\
    length (retrieved_requests evs) = 1 + max_retries LaterPage.outage /\
    retrieves st' = retrieves init + 1 + max_retries LaterPage.outage.
Proof.
  apply (later_page_outage LaterPage.outage LaterPage.outage_pages 1
           Scenario.account init 2 (fun _ => ClientConnectionError)).
  - simpl. lia.
  - intros [|i] r' Hi; [reflexivity | lia].
  - intros i Hi. reflexivity.
  - intros i r Hi. reflexivity.
  - intros i Hi. reflexivity.
  - intros [|[|i]] r' Hi; simpl in *; try (split; reflexivity); lia.
  - lia.
Defined.

(** X9.  When pages 0..N-1 went through and the answer for page N carries
    an error status, the [IngestDataRetrieveException] reaches the caller
    of the first [submit_request]: the N earlier pages were handed to the
    handler, page N was not, and page N was requested once, without any
    wait. *)
Theorem later_page_error_status env pages N req st fuel s :
  (forall i r', i <= N -> Retrieve env (retrieves st + i) r' = inr (pages i)) ->
  (forall i, i < N -> OverallStatus (pages i) = Some "MoreDataAvailable") ->
  OverallStatus (pages N) = Some s ->
  startswith "Error" s = true ->
  (forall i r, i < N -> response_callback env (handled st + i) r = None) ->
  (forall i, i < N -> is_it_time_to_pause env (pause_checks st + i) = false) ->
  N < fuel ->
  exists st' evs,
    submit_request env fuel req st
    = (st', Raise (IngestDataRetrieveException
                     ("Status Error in Response " ++ s))) /\
    trace st' = (trace st ++ evs)%list /\
    handled_responses evs = map pages (seq 0 N) /\
    length (retrieved_requests evs) = S N /\
    sleeps evs = 0.
Proof.
  intros HR HS HT HE HC HP Hf.
  set (reqN := walk_request req pages 0 N).
  set (stN := walk_state req pages 0 N st).
  exists (after_retrieve reqN stN),
         (walk_events req pages 0 N ++ [EvRetrieve reqN])%list.
  split; [|split; [|split; [|split]]].
  - replace fuel with (N + S (fuel - S N)) by lia.
    rewrite (submit_request_walk env pages N req st 0 (S (fuel - S N))).
    + apply (submit_request_status_error env _ reqN stN (pages N) s);
        try assumption.
      unfold stN, walk_state; cbn [retrieves]. apply HR. lia.
    + intros i r' Hi. apply HR. lia.
    + exact HS.
    + exact HC.
    + exact HP.
  - unfold after_retrieve, stN, walk_state; cbn [trace].
    rewrite <- app_assoc. reflexivity.
  - rewrite handled_responses_app, handled_walk_events, app_nil_r.
    reflexivity.
  - rewrite retrieved_requests_app, length_app, retrieved_walk_events.
    simpl. lia.
  - unfold sleeps. rewrite filter_app, length_app.
    fold (sleeps (walk_events req pages 0 N)). rewrite sleeps_walk_events.
    reflexivity.
Qed.

Lemma later_page_error_status_witness :
  exists st' evs,
    submit_request LaterPage.rejected 2 Scenario.account init
    = (st', Raise (IngestDataRetrieveException
                     "Status Error in Response Error: Invalid ObjectType")) /\
    trace st' = (trace init ++ evs)%list /\
    handled_responses evs = map LaterPage.rejected_pages (seq 0 1) /\
    length (retrieved_requests evs) = 2 /\
    sleeps evs = 0.
Proof.
  apply (later_page_error_status LaterPage.rejected LaterPage.rejected_pages 1
           Scenario.account init 2 "Error: Invalid ObjectType").
  - intros i r' Hi. reflexivity.
  - intros [|i] Hi; [reflexivity | lia].
  - reflexivity.
  - reflexivity.
  - intros i r Hi. reflexivity.
  - intros i Hi. reflexivity.
  - lia.
Defined.

(** ** Cursors *)

Lemma ObjectType_page_request req pages i :
  ObjectType (page_request req pages i) = ObjectType req.
Proof. destruct i; reflexivity. Qed.

Lemma next_page_request req pages i :
  next_request (page_request req pages i) (pages i)
  = page_request req pages (S i).
Proof.
  unfold next_request. rewrite ObjectType_page_request. reflexivity.
Qed.

Lemma walk_request_page req pages :
  forall n k,
    walk_request (page_request req pages k) pages k n
    = page_request req pages (k + n).
Proof.
  induction n as [|n IH]; intros k.
  - rewrite Nat.add_0_r. reflexivity.
  - cbn [walk_request]. rewrite next_page_request, IH.
    f_equal. lia.
Qed.

Lemma retrieved_walk_page req pages :
  forall n k,
    retrieved_requests (walk_events (page_request req pages k) pages k n)
    = map (page_request req pages) (seq k n).
Proof.
  induction n as [|n IH]; intros k; [reflexivity|].
  cbn [walk_events retrieved_requests flat_map app seq map].
  rewrite next_page_request. f_equal. apply IH.
Qed.

Lemma walk_request_snoc pages :
  forall n q k,
    walk_request q pages k (S n)
    = next_request (walk_request q pages k n) (pages (k + n)).
Proof.
  induction n as [|n IH]; intros q k.
  - simpl. rewrite Nat.add_0_r. reflexivity.
  - change (walk_request q pages k (S (S n)))
      with (walk_request (next_request q (pages k)) pages (S k) (S n)).
    rewrite IH. cbn [walk_request]. rewrite <- plus_n_Sm. reflexivity.
Qed.

Lemma walk_events_snoc pages :
  forall n q k,
    walk_events q pages k (S n)
    = (walk_events q pages k n
         ++ [EvRetrieve (walk_request q pages k n); EvHandler (pages (k + n))])%list.
Proof.
  induction n as [|n IH]; intros q k.
  - simpl. rewrite Nat.add_0_r. reflexivity.
  - change (walk_events q pages k (S (S n)))
      with (EvRetrieve q :: EvHandler (pages k)
              :: walk_events (next_request q (pages k)) pages (S k) (S n)).
    rewrite IH. cbn [walk_events walk_request app].
    rewrite <- plus_n_Sm. reflexivity.
Qed.

(** X10.  In a run over N+1 pages without pause, the first request is the
    one given and the request for page i+1 has the object type of the
    first, no property list, no filter, and as cursor the [RequestID] of
    response i. *)
Theorem cursor_chaining env pages N req st fuel :
  (forall i r', i <= N -> Retrieve env (retrieves st + i) r' = inr (pages i)) ->
  (forall i, i < N -> OverallStatus (pages i) = Some "MoreDataAvailable") ->
  OverallStatus (pages N) = Some "Success" ->
  (forall i, i < N -> is_it_time_to_pause env (pause_checks st + i) = false) ->
  (forall i r, i <= N -> response_callback env (handled st + i) r = None) ->
  N < fuel ->
  exists st' evs,
    submit_request env fuel req st = (st', Return tt) /\
    trace st' = (trace st ++ evs)%list /\
    retrieved_requests evs = map (page_request req pages) (seq 0 (S N)) /\
    (forall i, i < N ->
       nth_error (retrieved_requests evs) (S i)
       = Some (req_base (ObjectType req) [] None (RequestID (pages i)))).
Proof.
  intros HR HS HT HP HC Hf.
  set (reqN := walk_request req pages 0 N).
  set (stN := walk_state req pages 0 N st).
  assert (Hreq : retrieved_requests (walk_events req pages 0 (S N))
                 = map (page_request req pages) (seq 0 (S N))).
  { apply (retrieved_walk_page req pages (S N) 0). }
  exists (after_page reqN (pages N) stN), (walk_events req pages 0 (S N)).
  split; [|split; [|split]].
  - replace fuel with (N + S (fuel - S N)) by lia.
    rewrite (submit_request_walk env pages N req st 0 (S (fuel - S N))).
    + apply (submit_request_terminal env _ reqN stN (pages N) "Success").
      * unfold stN, walk_state; cbn [retrieves]. apply HR. lia.
      * exact HT.
      * exact Success_not_error.
      * discriminate.
      * unfold stN, walk_state; cbn [handled]. apply HC. lia.
    + intros i r' Hi. apply HR. lia.
    + exact HS.
    + intros i r Hi. apply HC. lia.
    + exact HP.
  - rewrite walk_events_snoc. unfold after_page, stN, walk_state; cbn [trace].
    rewrite <- app_assoc. reflexivity.
  - exact Hreq.
  - intros i Hi. rewrite Hreq.
    rewrite (nth_error_map (page_request req pages) (S i) (seq 0 (S N))).
    rewrite nth_error_seq.
    destruct (Nat.ltb_spec (S i) (S N)) as [_|Hge]; [reflexivity | lia].
Qed.

Lemma cursor_chaining_witness :
  exists st' evs,
    submit_request Scenario.calm 3 Scenario.account init = (st', Return tt) /\
    trace st' = (trace init ++ evs)%list /\
    retrieved_requests evs
    = map (page_request Scenario.account Scenario.three_pages) (seq 0 3) /\
    (forall i, i < 2 ->
       nth_error (retrieved_requests evs) (S i)
       = Some (req_base (ObjectType Scenario.account) [] None
                 (RequestID (Scenario.three_pages i)))).
Proof.
  apply (cursor_chaining Scenario.calm Scenario.three_pages 2
           Scenario.account init 3).
  - intros i r' _. reflexivity.
  - intros [|[|i]] Hi; [reflexivity | reflexivity | lia].
  - reflexivity.
  - intros i _. reflexivity.
  - intros i r _. reflexivity.
  - lia.
Defined.

(** ** Pause, then resume *)

Lemma seq_three k m :
  seq 0 (S (k + S m)) = (seq 0 k ++ [k] ++ seq (S k) m ++ [k + S m])%list.
Proof.
  replace (S (k + S m)) with (k + (1 + (m + 1))) by lia.
  rewrite !seq_app. cbn [seq app Nat.add].
  replace (k + 1) with (S k) by lia.
  replace (S k + m) with (k + S m) by lia. reflexivity.
Qed.

(** X11.  A job that is paused at boundary k and then resumed with the
    dictionary it handed to the pause notifier does what an uninterrupted
    job does.  With pages 0..k+m+1, the budget spent at boundary k only and
    callbacks that return: the first call returns after the notifier got
    one dictionary, [resume_request] on that dictionary returns, and over
    both calls the handler got the pages 0..k+m+1 once each, in order, and
    the requests sent were those of the walk without pause, page k+1 being
    asked for with the cursor of response k.  The auth blob given to
    [resume_extract] is the one [pause_extract] returned. *)
Theorem pause_resume_round_trip env pages k m req st fuelA fuelB :
  (forall i r', i <= k + S m ->
     Retrieve env (retrieves st + i) r' = inr (pages i)) ->
  (forall i, i < k + S m ->
     OverallStatus (pages i) = Some "MoreDataAvailable") ->
  OverallStatus (pages (k + S m)) = Some "Success" ->
  (forall i r, i <= k + S m ->
     response_callback env (handled st + i) r = None) ->
  (forall i, i < k + S m ->
     is_it_time_to_pause env (pause_checks st + i) = Nat.eqb i k) ->
  (forall p, pause_callback env (pauses st) p = None) ->
  k < fuelA ->
  m < fuelB ->
  exists stA p stB evsA evsB,
    submit_request env fuelA req st = (stA, Return tt) /\
    trace stA = (trace st ++ evsA ++ [EvPause p])%list /\
    paused_states evsA = [] /\
    resume_request env fuelB p stA = (stB, Return tt) /\
    trace stB
    = (trace stA ++ EvResumeExtract (pause_extract env (pauses st)) :: evsB)%list /\
    oauth p = Some (pause_extract env (pauses st)) /\
    paused_states evsB = [] /\
    (handled_responses evsA ++ handled_responses evsB)%list
    = map pages (seq 0 (S (k + S m))) /\
    (retrieved_requests evsA ++ retrieved_requests evsB)%list
    = map (page_request req pages) (seq 0 (S (k + S m))).
Proof.
  intros HR HS HT HC HP HN HfA HfB.
  pose (pr := page_request req pages).
  set (stk := walk_state req pages 0 k st).
  set (p := paused_at env (pr k) (pages k) stk).
  set (stA := mk_state (S (retrieves stk)) (S (pause_checks stk))
                (S (handled stk)) (S (pauses stk))
                (trace stk ++ [EvRetrieve (pr k); EvHandler (pages k);
                               EvPause p])).
  set (blob := pause_extract env (pauses st)).
  set (stB0 := log_event (EvResumeExtract blob) stA).
  set (stm := walk_state (pr (S k)) pages (S k) m stB0).
  assert (Hk : walk_request req pages 0 k = pr k)
    by apply (walk_request_page req pages k 0).
  assert (Hm : walk_request (pr (S k)) pages (S k) m = pr (k + S m)).
  { unfold pr. rewrite walk_request_page. f_equal. lia. }
  assert (EA : submit_request env fuelA req st = (stA, Return tt)).
  { replace fuelA with (k + S (fuelA - S k)) by lia.
    rewrite (submit_request_walk env pages k req st 0 (S (fuelA - S k))).
    - rewrite Hk. apply (submit_request_pause env _ (pr k) stk (pages k)).
      + unfold stk, walk_state; cbn [retrieves]. apply HR. lia.
      + apply HS. lia.
      + unfold stk, walk_state; cbn [handled]. apply HC. lia.
      + unfold stk, walk_state; cbn [pause_checks].
        rewrite HP by lia. apply Nat.eqb_refl.
      + unfold stk, walk_state; cbn [pauses]. apply HN.
    - intros i r' Hi. apply HR. lia.
    - intros i Hi. apply HS. lia.
    - intros i r Hi. apply HC. lia.
    - intros i Hi. cbn [Nat.add]. rewrite HP by lia.
      apply Nat.eqb_neq. lia. }
  assert (EB : resume_request env fuelB p stA
               = (after_page (pr (k + S m)) (pages (k + S m)) stm, Return tt)).
  { rewrite resume_request_eq.
    change (resumed_request p) with (next_request (pr k) (pages k)).
    unfold pr at 1. rewrite next_page_request. fold pr.
    change (resumed_state p stA) with stB0.
    replace fuelB with (m + S (fuelB - S m)) by lia.
    rewrite (submit_request_walk env pages m (pr (S k)) stB0 (S k)
               (S (fuelB - S m))).
    - rewrite Hm.
      apply (submit_request_terminal env _ _ _ (pages (k + S m)) "Success").
      + unfold stm, walk_state, stB0, log_event, stA, stk, walk_state;
          cbn [retrieves].
        replace (S (retrieves st + k) + m) with (retrieves st + (k + S m))
          by lia.
        apply HR. lia.
      + exact HT.
      + exact Success_not_error.
      + discriminate.
      + unfold stm, walk_state, stB0, log_event, stA, stk, walk_state;
          cbn [handled].
        replace (S (handled st + k) + m) with (handled st + (k + S m)) by lia.
        apply HC. lia.
    - intros i r' Hi.
      unfold stB0, log_event, stA, stk, walk_state; cbn [retrieves].
      replace (S (retrieves st + k) + i) with (retrieves st + (S k + i)) by lia.
      apply HR. lia.
    - intros i Hi. apply HS. lia.
    - intros i r Hi.
      unfold stB0, log_event, stA, stk, walk_state; cbn [handled].
      replace (S (handled st + k) + i) with (handled st + (S k + i)) by lia.
      apply HC. lia.
    - intros i Hi.
      unfold stB0, log_event, stA, stk, walk_state; cbn [pause_checks].
      replace (S (pause_checks st + k) + i)
        with (pause_checks st + (S k + i)) by lia.
      rewrite HP by lia. apply Nat.eqb_neq. lia. }
  exists stA, p, (after_page (pr (k + S m)) (pages (k + S m)) stm),
         (walk_events req pages 0 k ++ [EvRetrieve (pr k); EvHandler (pages k)])%list,
         (walk_events (pr (S k)) pages (S k) m
            ++ [EvRetrieve (pr (k + S m)); EvHandler (pages (k + S m))])%list.
  split; [exact EA|]. split.
  { unfold stA, stk, walk_state; cbn [trace]. rewrite <- !app_assoc.
    reflexivity. }
  split.
  { rewrite paused_states_app, paused_walk_events. reflexivity. }
  split; [exact EB|]. split.
  { unfold after_page, stm, walk_state, stB0, log_event; cbn [trace].
    rewrite <- !app_assoc. reflexivity. }
  split; [reflexivity|]. split.
  { rewrite paused_states_app, paused_walk_events. reflexivity. }
  split.
  - rewrite !handled_responses_app, !handled_walk_events, seq_three, !map_app.
    cbn [handled_responses flat_map app map]. rewrite <- !app_assoc.
    reflexivity.
  - rewrite !retrieved_requests_app.
    change req with (page_request req pages 0) at 1.
    unfold pr. rewrite !retrieved_walk_page, seq_three, !map_app.
    cbn [retrieved_requests flat_map app map]. rewrite <- !app_assoc.
    reflexivity.
Qed.

Lemma pause_resume_round_trip_witness :
  exists stA p stB evsA evsB,
    submit_request Interrupted.env 1 Scenario.account init = (stA, Return tt) /\
    trace stA = (trace init ++ evsA ++ [EvPause p])%list /\
    paused_states evsA = [] /\
    resume_request Interrupted.env 2 p stA = (stB, Return tt) /\
    trace stB
    = (trace stA
         ++ EvResumeExtract (pause_extract Interrupted.env (pauses init))
              :: evsB)%list /\
    oauth p = Some (pause_extract Interrupted.env (pauses init)) /\
    paused_states evsB = [] /\
    (handled_responses evsA ++ handled_responses evsB)%list
    = map Scenario.three_pages (seq 0 3) /\
    (retrieved_requests evsA ++ retrieved_requests evsB)%list
    = map (page_request Scenario.account Scenario.three_pages) (seq 0 3).
Proof.
  apply (pause_resume_round_trip Interrupted.env Scenario.three_pages 0 1
           Scenario.account init 1 2).
  - intros i r' _. reflexivity.
  - intros [|[|i]] Hi; [reflexivity | reflexivity | lia].
  - reflexivity.
  - intros i r _. reflexivity.
  - intros i _. reflexivity.
  - intros p. reflexivity.
  - lia.
  - lia.
Defined.

(** ** A handler that raises the transient class *)

Lemma body_handler_raises submit env req st r s e :
  Retrieve env (retrieves st) req = inr r ->
  OverallStatus r = Some s ->
  startswith "Error" s = false ->
  s <> "MoreDataAvailable" ->
  response_callback env (handled st) r = Some e ->
  submit_request_body submit env req st = (after_page req r st, Raise e).
Proof.
  intros HR HS HE HN HC.
  unfold submit_request_body, bind, try_except, service_Retrieve.
  rewrite HR, HS, HE. unfold gather, call_response_callback.
  cbn [retrieves pause_checks handled pauses trace].
  rewrite HC, (next_terminal _ env req r s) by assumption.
  unfold after_page. rewrite <- app_assoc. reflexivity.
Qed.

Lemma retry_loop_handler_raises submit env req :
  forall further st rs es,
    (forall i, i <= further ->
       Retrieve env (retrieves st + i) req = inr (rs i) /\
       (exists s, OverallStatus (rs i) = Some s /\
                  startswith "Error" s = false /\
                  s <> "MoreDataAvailable") /\
       response_callback env (handled st + i) (rs i) = Some (es i) /\
       retry_if_exception_type (es i) = true) ->
    retry_loop further (submit_request_body submit env req) st
    = (mk_state (retrieves st + S further) (pause_checks st)
                (handled st + S further) (pauses st)
                (trace st ++ redispatched req rs further),
       Raise (RetryError (es further))).
Proof.
  induction further as [|k IH]; intros st rs es H.
  - destruct (H 0 (le_n 0)) as (HR & (s & HS & HE & HN) & HC & Hp).
    rewrite Nat.add_0_r in HR, HC.
    rewrite (retry_loop_exhausted _ st (after_page req (rs 0) st) (es 0)).
    + unfold after_page. rewrite !Nat.add_1_r. reflexivity.
    + eapply body_handler_raises; eassumption.
    + exact Hp.
  - destruct (H 0 (Nat.le_0_l _)) as (HR & (s & HS & HE & HN) & HC & Hp).
    rewrite Nat.add_0_r in HR, HC.
    rewrite (retry_loop_again k _ st (after_page req (rs 0) st) (es 0)).
    + rewrite (IH _ (fun i => rs (S i)) (fun i => es (S i))).
      * unfold log_event, after_page;
          cbn [retrieves pause_checks handled pauses trace redispatched].
        f_equal. f_equal; [lia | lia |].
        rewrite <- !app_assoc. reflexivity.
      * intros i Hi. cbn [log_event after_page retrieves handled].
        replace (S (retrieves st) + i) with (retrieves st + S i) by lia.
        replace (S (handled st) + i) with (handled st + S i) by lia.
        apply H. lia.
    + eapply body_handler_raises; eassumption.
    + exact Hp.
Qed.

Lemma handled_redispatched req :
  forall n rs,
    handled_responses (redispatched req rs n) = map rs (seq 0 (S n)).
Proof.
  induction n as [|n IH]; intros rs; [reflexivity|].
  cbn [redispatched handled_responses flat_map app].
  change (flat_map _ (redispatched req (fun i => rs (S i)) n))
    with (handled_responses (redispatched req (fun i => rs (S i)) n)).
  rewrite IH.
  change (map rs (seq 0 (S (S n)))) with (rs 0 :: map rs (seq 1 (S n))).
  f_equal. rewrite <- seq_shift, map_map. reflexivity.
Qed.

Lemma retrieved_redispatched req :
  forall n rs, retrieved_requests (redispatched req rs n) = repeat req (S n).
Proof.
  induction n as [|n IH]; intros rs; [reflexivity|].
  cbn [redispatched retrieved_requests flat_map app].
  change (flat_map _ (redispatched req (fun i => rs (S i)) n))
    with (retrieved_requests (redispatched req (fun i => rs (S i)) n)).
  rewrite IH. reflexivity.
Qed.

(** X12.  The retry covers the handler.  When the transport answers each
    time (terminal, non-error status) and the handler raises an exception
    of the transient class at each of its calls, the page is requested
    [max_retries] times and handed to the handler [max_retries] times, and
    the call ends with [RetryError] holding the handler's last exception. *)
Theorem transient_handler_error_retried env fuel req st rs es :
  1 <= max_retries env ->
  (forall i, i < max_retries env ->
     Retrieve env (retrieves st + i) req = inr (rs i) /\
     (exists s, OverallStatus (rs i) = Some s /\
                startswith "Error" s = false /\
                s <> "MoreDataAvailable") /\
     response_callback env (handled st + i) (rs i) = Some (es i) /\
     retry_if_exception_type (es i) = true) ->
  exists st' evs,
    submit_request env (S fuel) req st
    = (st', Raise (RetryError (es (max_retries env - 1)))) /\
    trace st' = (trace st ++ evs)%list /\
    handled_responses evs = map rs (seq 0 (max_retries env)) /\
    retrieved_requests evs = repeat req (max_retries env) /\
    handled st' = handled st + max_retries env.
Proof.
  intros HM H.
  exists (mk_state (retrieves st + S (max_retries env - 1)) (pause_checks st)
            (handled st + S (max_retries env - 1)) (pauses st)
            (trace st ++ redispatched req rs (max_retries env - 1))),
         (redispatched req rs (max_retries env - 1)).
  split; [|split; [|split; [|split]]].
  - cbn [submit_request]. unfold retry.
    apply (retry_loop_handler_raises _ env req (max_retries env - 1) st rs es).
    intros i Hi. apply H. lia.
  - reflexivity.
  - rewrite handled_redispatched. f_equal. f_equal. lia.
  - rewrite retrieved_redispatched. f_equal. lia.
  - cbn [handled]. lia.
Qed.

Lemma transient_handler_error_retried_witness :
  exists st' evs,
    submit_request Unavailable.env 1 Scenario.account init
    = (st', Raise (RetryError
                     (IngestServiceException "store unavailable" 2
                        ClientConnectionError))) /\
    trace st' = (trace init ++ evs)%list /\
    handled_responses evs
    = map (fun _ => Scenario.success) (seq 0 (max_retries Unavailable.env)) /\
    retrieved_requests evs
    = repeat Scenario.account (max_retries Unavailable.env) /\
    handled st' = handled init + max_retries Unavailable.env.
Proof.
  apply (transient_handler_error_retried Unavailable.env 0 Scenario.account
           init (fun _ => Scenario.success)
           (fun k => IngestServiceException "store unavailable" (Z.of_nat k)
                       ClientConnectionError)).
  - simpl. lia.
  - intros i Hi. split; [reflexivity|]. split.
    + exists "Success". split; [reflexivity|].
      split; [reflexivity | discriminate].
    + split; reflexivity.
Defined.

(** ** The SOAP client is built once *)

Lemma reads_cached get_soap_client client k :
  forall n,
    ZeepClient.reads get_soap_client n (ZeepClient.mk_instance (Some client) k)
    = (ZeepClient.mk_instance (Some client) k, repeat client n).
Proof.
  induction n as [|n IH]; [reflexivity|].
  cbn [ZeepClient.reads ZeepClient.zeep_client ZeepClient._zeep_client].
  rewrite IH. reflexivity.
Qed.

(** X13.  However often the [zeep_client] property of a new object is
    read, [Oauth2Request.get_soap_client()] is called once, at the first
    read, and every read returns the client of that call. *)
Theorem zeep_client_built_once get_soap_client n :
  snd (ZeepClient.reads get_soap_client n ZeepClient.__init__)
  = repeat (get_soap_client 0) n /\
  ZeepClient.built (fst (ZeepClient.reads get_soap_client n ZeepClient.__init__))
  = Nat.min 1 n /\
  (0 < n ->
   ZeepClient._zeep_client
     (fst (ZeepClient.reads get_soap_client n ZeepClient.__init__))
   = Some (get_soap_client 0)).
Proof.
  destruct n as [|n].
  - repeat split. intros H. inversion H.
  - cbn [ZeepClient.reads ZeepClient.zeep_client ZeepClient._zeep_client
         ZeepClient.__init__ ZeepClient.built].
    rewrite reads_cached. repeat split.
Qed.
